(** * BookStore (Flask + SQLAlchemy): the listing pipeline and the delete route

    A shallow embedding of [app.py] and [data_models.py].

    - Python [str] values are [string]s holding the UTF-8 encoding of the
      text.  Substring search ([in]) and the ordering used by [list.sort]
      agree on code points and on their UTF-8 bytes, so both are modelled on
      the bytes; [len] counts code points.  [str.lower] is the interpreter's
      Unicode case mapping: the pipeline is parameterised by it ([lower]),
      and [ascii_lower] is the instance used in the examples.
    - Values that come back from [response.json()] and the values stored in
      the view dictionaries are [pyval]s.
    - Handlers run in [M], a state-and-exception monad over [world]: the
      record store, the statements issued against it, the remote book
      service and the requests sent to it. *)

From Stdlib Require Import ZArith String Ascii Bool List Sorted Permutation Lia.
From stdpp Require Import base option list gmap strings.

Local Open Scope Z_scope.

(** ** Strings *)

(** [needle in hay] *)
Fixpoint contains (needle hay : string) : bool :=
  String.prefix needle hay ||
  match hay with
  | EmptyString => false
  | String _ hay' => contains needle hay'
  end.

(** A byte [10xxxxxx] continues a UTF-8 sequence. *)
Definition continuation (c : ascii) : bool :=
  match c with
  | Ascii _ _ _ _ _ _ b6 b7 => b7 && negb b6
  end.

(** [len(s)]: the number of code points. *)
Fixpoint str_len (s : string) : nat :=
  match s with
  | EmptyString => O
  | String c s' => if continuation c then str_len s' else S (str_len s')
  end.

Fixpoint take_continuation (s : string) : string :=
  match s with
  | String c s' => if continuation c then String c (take_continuation s') else EmptyString
  | EmptyString => EmptyString
  end.

(** [s[0]]: the first code point, as a string of length one. *)
Definition str_first (s : string) : option string :=
  match s with
  | EmptyString => None
  | String c s' => Some (String c (take_continuation s'))
  end.

(** The case mapping on ASCII letters; other bytes are left alone. *)
Definition ascii_lower_char (c : ascii) : ascii :=
  let n := N_of_ascii c in
  if (65 <=? n)%N && (n <=? 90)%N then ascii_of_N (n + 32) else c.

Fixpoint ascii_lower (s : string) : string :=
  match s with
  | EmptyString => EmptyString
  | String c s' => String (ascii_lower_char c) (ascii_lower s')
  end.

(** [bool(s)] *)
Definition truthy (s : string) : bool :=
  match s with
  | EmptyString => false
  | String _ _ => true
  end.

(** ** Exceptions and results

    A constructor names the class of the exception that is raised.  The
    classes are not disjoint in Python: the [JSONDecodeError] that
    [response.json()] raises is [requests]' class and is itself a
    [RequestException], and [RequestException] here is whatever subclass
    [requests.get] raises.  No handler of the repository catches an
    exception, so only the class raised is modelled. *)

Inductive exn :=
| RequestException
| JSONDecodeError
| TypeError
| KeyError
| IndexError
| AttributeError.

Inductive result (A : Type) :=
| Ok (a : A)
| Raise (e : exn).
Arguments Ok {A} a.
Arguments Raise {A} e.

#[global] Instance result_ret : MRet result := fun A a => Ok a.
#[global] Instance result_bind : MBind result := fun A B f r =>
  match r with
  | Ok a => f a
  | Raise e => Raise e
  end.

(** ** Data model ([data_models.py]) *)

Record date := Date { year : Z; month : Z; day : Z }.

Module Author.
Record t := Make {
  id : Z;
  name : string;
  birth_date : option date;
  date_of_death : option date
}.
End Author.

Module Book.
(** The columns of a row of the book table. *)
Record row := Row {
  row_id : Z;
  row_isbn : option string;
  row_title : string;
  row_publication_year : option Z;
  row_author_id : Z
}.

(** A loaded [Book] object: its columns and the [author] relationship
    ([None] when no author row has the referenced id). *)
Record t := Make {
  id : Z;
  isbn : option string;
  title : string;
  publication_year : option Z;
  author_id : Z;
  author : option Author.t
}.
End Book.

Record Store := { authors : list Author.t; books : list Book.row }.

Definition find_author (db : Store) (author_id : Z) : option Author.t :=
  List.find (fun a => Author.id a =? author_id) (authors db).

Definition load (db : Store) (r : Book.row) : Book.t :=
  Book.Make (Book.row_id r) (Book.row_isbn r) (Book.row_title r)
            (Book.row_publication_year r) (Book.row_author_id r)
            (find_author db (Book.row_author_id r)).

(** ** Python values *)

#[warnings="-register-all"]
Inductive pyval :=
| PNone
| PBool (b : bool)
| PInt (n : Z)
| PFloat (literal : string)
| PStr (s : string)
| PList (l : list pyval)
| PDict (d : list (string * pyval))
| PAuthor (a : Author.t).

Definition is_str (v : pyval) : bool :=
  match v with
  | PStr _ => true
  | _ => false
  end.

Definition of_str (o : option string) : pyval :=
  match o with
  | Some s => PStr s
  | None => PNone
  end.

Definition of_int (o : option Z) : pyval :=
  match o with
  | Some n => PInt n
  | None => PNone
  end.

Definition of_author (o : option Author.t) : pyval :=
  match o with
  | Some a => PAuthor a
  | None => PNone
  end.

(** [f'{v}'] for an optional string. *)
Definition format_str (o : option string) : string :=
  match o with
  | Some s => s
  | None => "None"
  end.

Fixpoint assoc {A} (key : string) (d : list (string * A)) : option A :=
  match d with
  | [] => None
  | (k, v) :: d' => if String.eqb k key then Some v else assoc key d'
  end.

(** [key == v] for a string [key] *)
Definition str_eq (key : string) (v : pyval) : bool :=
  match v with
  | PStr s => String.eqb key s
  | _ => false
  end.

(** [key in data] *)
Definition py_in (key : string) (data : pyval) : result bool :=
  match data with
  | PDict d => Ok (bool_decide (is_Some (assoc key d)))
  | PList l => Ok (existsb (str_eq key) l)
  | PStr s => Ok (contains key s)
  | _ => Raise TypeError
  end.

(** [data[key]] for a string [key] *)
Definition py_getitem (data : pyval) (key : string) : result pyval :=
  match data with
  | PDict d =>
      match assoc key d with
      | Some v => Ok v
      | None => Raise KeyError
      end
  | _ => Raise TypeError
  end.

(** [len(v)] *)
Definition py_len (v : pyval) : result Z :=
  match v with
  | PList l => Ok (Z.of_nat (length l))
  | PDict d => Ok (Z.of_nat (length d))
  | PStr s => Ok (Z.of_nat (str_len s))
  | _ => Raise TypeError
  end.

(** [v[0]] *)
Definition py_first (v : pyval) : result pyval :=
  match v with
  | PList (x :: _) => Ok x
  | PList [] => Raise IndexError
  | PStr s =>
      match str_first s with
      | Some c => Ok (PStr c)
      | None => Raise IndexError
      end
  | PDict _ => Raise KeyError
  | _ => Raise TypeError
  end.

(** [v.get(key, default)] *)
Definition py_get (v : pyval) (key : string) (default : pyval) : result pyval :=
  match v with
  | PDict d =>
      match assoc key d with
      | Some x => Ok x
      | None => Ok default
      end
  | _ => Raise AttributeError
  end.

(** ** The world a handler runs in *)

(** The calls a handler makes on the query and session interface of the
    mapper: [Book.query.all()], [Book.query.get(id)], [db.session.delete]
    and [db.session.commit].  The loads the mapper issues on its own when
    the relationship [book.author] is first read are not calls of the
    handler and are not recorded; they read the author table. *)
Inductive db_event :=
| SelectAllBooks
| SelectBook (id : Z)
| DeleteBook (id : Z)
| Commit.

Definition is_write (e : db_event) : bool :=
  match e with
  | SelectAllBooks | SelectBook _ => false
  | DeleteBook _ | Commit => true
  end.

(** A [requests] response: the status code and the decoded body ([None]
    when the body is not JSON, so that [json()] raises). *)
Record Response := { status_code : Z; json_body : option pyval }.

(** What a call of [requests.get] does: it raises, or it returns. *)
Inductive http_outcome :=
| Fails
| Returns (r : Response).

(** [net n url] is the outcome of the [n]-th outbound call when it asks
    for [url]; [net_log] lists the calls made so far. *)
Record world := World {
  store : Store;
  db_log : list db_event;
  net : nat -> string -> http_outcome;
  net_log : list string
}.

Definition M (A : Type) : Type := world -> result A * world.

#[global] Instance M_ret : MRet M := fun A a w => (Ok a, w).
#[global] Instance M_bind : MBind M := fun A B f m w =>
  match m w with
  | (Ok a, w') => f a w'
  | (Raise e, w') => (Raise e, w')
  end.

Definition lift {A} (r : result A) : M A := fun w => (r, w).

(** [Book.query.all()] *)
Definition Book_query_all : M (list Book.t) := fun w =>
  (Ok (map (load (store w)) (books (store w))),
   World (store w) (db_log w ++ [SelectAllBooks]) (net w) (net_log w)).

(** [Book.query.get(book_id)] *)
Definition Book_query_get (book_id : Z) : M (option Book.t) := fun w =>
  (Ok (load (store w) <$> List.find (fun r => Book.row_id r =? book_id) (books (store w))),
   World (store w) (db_log w ++ [SelectBook book_id]) (net w) (net_log w)).

(** [Book.delete_book]: [db.session.delete(self)], [db.session.commit()] *)
Definition Book_delete_book (self : Book.t) : M unit := fun w =>
  (Ok tt,
   World {| authors := authors (store w);
            books := List.filter (fun r => negb (Book.row_id r =? Book.id self)) (books (store w)) |}
         (db_log w ++ [DeleteBook (Book.id self); Commit]) (net w) (net_log w)).

(** [requests.get(url)] *)
Definition requests_get (url : string) : M Response := fun w =>
  let w' := World (store w) (db_log w) (net w) (net_log w ++ [url]) in
  match net w (length (net_log w)) url with
  | Fails => (Raise RequestException, w')
  | Returns r => (Ok r, w')
  end.

(** [response.json()] *)
Definition Response_json (response : Response) : result pyval :=
  match json_body response with
  | Some data => Ok data
  | None => Raise JSONDecodeError
  end.

(** ** Flask *)

Inductive http_method := GET | HEAD | POST | PUT | DELETE | PATCH | OPTIONS.

#[global] Instance http_method_eq_dec : EqDecision http_method.
Proof. solve_decision. Defined.

(** [request]: the method and the query string, as key/value pairs in the
    order they appear. *)
Record Request := { method : http_method; args : list (string * string) }.

(** [request.args.get(key)] *)
Definition args_get (request : Request) (key : string) : option string :=
  assoc key (args request).

Abbreviation book_info := (gmap string pyval).

Inductive template_arg :=
| ABooks (books_data : list book_info)
| ABook (book : Book.t).

Inductive response :=
| Rendered (template : string) (context : list (string * template_arg))
| Redirect (location : string) (code : Z)
| MethodNotAllowed
| AutomaticOptions.

Definition render_template (template : string) (context : list (string * template_arg)) : response :=
  Rendered template context.

(** [redirect(location, code=302, Response=None)]: any other keyword is a
    [TypeError]. *)
Definition redirect (location : string) (kwargs : list (string * pyval)) : result response :=
  if forallb (fun kv => String.eqb (fst kv) "code" || String.eqb (fst kv) "Response") kwargs then
    match assoc "code" kwargs with
    | Some (PInt code) => Ok (Redirect location code)
    | Some _ => Raise TypeError
    | None => Ok (Redirect location 302)
    end
  else Raise TypeError.

(** [@app.route(rule, methods=methods)]: a request whose method the rule
    does not list never reaches the view function; [HEAD] comes with [GET],
    and [OPTIONS] is answered by the framework. *)
Definition route (methods : list http_method) (view : Request -> M response)
    (request : Request) : M response :=
  let m := method request in
  if bool_decide (m ∈ methods) || (bool_decide (m = HEAD) && bool_decide (GET ∈ methods))
  then view request
  else if bool_decide (m = OPTIONS) then mret AutomaticOptions
  else mret MethodNotAllowed.

(** ** [list.sort(key=...)]

    The keys are computed first, one call per element; the elements are then
    ordered by [<] on the keys, equal keys keeping their order.  A sorted
    list that keeps equal keys in order is unique ([stable_sorted_unique]
    below), so the insertion sort written here returns the list the
    interpreter's sort returns. *)

Section Sort.
Context {A : Type}.

Fixpoint insert_by_key (x : string * A) (l : list (string * A)) : list (string * A) :=
  match l with
  | [] => [x]
  | y :: l' => if String.ltb (fst y) (fst x) then y :: insert_by_key x l' else x :: y :: l'
  end.

Fixpoint sort_keyed (l : list (string * A)) : list (string * A) :=
  match l with
  | [] => []
  | x :: l' => insert_by_key x (sort_keyed l')
  end.

Fixpoint decorate (key : A -> result string) (l : list A) : result (list (string * A)) :=
  match l with
  | [] => Ok []
  | x :: l' =>
      k ← key x;
      keyed ← decorate key l';
      Ok ((k, x) :: keyed)
  end.

Definition list_sort (key : A -> result string) (l : list A) : result (list A) :=
  keyed ← decorate key l;
  Ok (map snd (sort_keyed keyed)).
End Sort.

(** ** The listing pipeline ([home]) *)

(** [book.author.name]: an [AttributeError] on a book without author. *)
Definition author_name (book : Book.t) : result string :=
  match Book.author book with
  | Some a => Ok (Author.name a)
  | None => Raise AttributeError
  end.

Definition volumes_url : string := "https://www.googleapis.com/books/v1/volumes?q=isbn:".

(** Lines 124-132: the value stored under ['cover_image']. *)
Definition cover_image (response : Response) : result pyval :=
  if status_code response =? 200 then
    data ← Response_json response;
    has_items ← py_in "items" data;
    found ← (if has_items : bool then
               items ← py_getitem data "items";
               n ← py_len items;
               Ok (0 <? n)
             else Ok false);
    if found : bool then
      items ← py_getitem data "items";
      item ← py_first items;
      volumeInfo ← py_getitem item "volumeInfo";
      imageLinks ← py_get volumeInfo "imageLinks" (PDict []);
      py_get imageLinks "thumbnail" (PStr "")
    else Ok (PStr "")
  else Ok (PStr "").

(** The body of the loop of lines 115-134, for one book. *)
Definition book_entry (book : Book.t) : M book_info :=
  let book_info : book_info :=
    <["author_name" := of_author (Book.author book)]>
    (<["publication_year" := of_int (Book.publication_year book)]>
    (<["isbn" := of_str (Book.isbn book)]>
    (<["title" := PStr (Book.title book)]> ∅))) in
  response ← requests_get (volumes_url +:+ format_str (Book.isbn book));
  cover_link ← lift (cover_image response);
  mret (<["cover_image" := cover_link]> book_info).

Fixpoint for_each_book (books : list Book.t) (books_data : list book_info) : M (list book_info) :=
  match books with
  | [] => mret books_data
  | book :: books' =>
      info ← book_entry book;
      for_each_book books' (books_data ++ [info])
  end.

(** Lines 108-111. *)
Definition sort_step (sort_by : option string) (books : list Book.t) : result (list Book.t) :=
  if bool_decide (sort_by = Some "title") then
    list_sort (fun x => Ok (Book.title x)) books
  else if bool_decide (sort_by = Some "author") then
    list_sort author_name books
  else Ok books.

Section Pipeline.
Variable lower : string -> string.

(** The condition of the comprehension of lines 104-105; [or] evaluates
    its right operand only when the left one is false. *)
Definition matches (search_query : string) (book : Book.t) : result bool :=
  if contains (lower search_query) (lower (Book.title book)) then Ok true
  else
    name ← author_name book;
    Ok (contains (lower search_query) (lower name)).

Fixpoint filter_books (search_query : string) (books : list Book.t) : result (list Book.t) :=
  match books with
  | [] => Ok []
  | book :: books' =>
      keep ← matches search_query book;
      kept ← filter_books search_query books';
      Ok (if keep : bool then book :: kept else kept)
  end.

(** Lines 103-105. *)
Definition filter_step (search_query : option string) (books : list Book.t) : result (list Book.t) :=
  match search_query with
  | Some q => if truthy q then filter_books q books else Ok books
  | None => Ok books
  end.

(** The books the loop runs over: filtered, then sorted. *)
Definition surviving (sort_by search_query : option string) (books : list Book.t) : result (list Book.t) :=
  books ← filter_step search_query books;
  sort_step sort_by books.

Definition home (request : Request) : M response :=
  let sort_by := args_get request "sort_by" in
  let search_query := args_get request "search_query" in
  books ← Book_query_all;
  books ← lift (filter_step search_query books);
  books ← lift (sort_step sort_by books);
  books_data ← for_each_book books [];
  mret (render_template "home.html" [("books", ABooks books_data)]).
End Pipeline.

(** ** The delete route ([delete_book]) *)

Definition delete_book (request : Request) (book_id : Z) : M response :=
  book ← Book_query_get book_id;
  match book with
  | None => lift (redirect "/" [("code", PInt 303); ("message", PStr "Book not found!")])
  | Some book =>
      if bool_decide (method request = POST) then
        _ ← Book_delete_book book;
        lift (redirect "/" [("code", PInt 200); ("message", PStr "Book deleted successfully!")])
      else mret (render_template "delete_book.html" [("book", ABook book)])
  end.

(** [@app.route('/')] and [@app.route('/book/<int:book_id>/delete', methods=['GET'])] *)
Definition home_route (lower : string -> string) : Request -> M response :=
  route [GET] (home lower).

Definition delete_book_route (book_id : Z) : Request -> M response :=
  route [GET] (fun request => delete_book request book_id).

(** ** Vocabulary of the statements *)

(** Order and equality of keys on decorated elements. *)
Definition key_le {A} (x y : string * A) : Prop := String.leb (fst x) (fst y) = true.

Definition has_key {A} (k : string) (x : string * A) : bool := String.eqb (fst x) k.

(** What [list_sort] returns for a key function that never raises. *)
Definition sorted_by_key {A} (f : A -> string) (l : list A) : list A :=
  map snd (sort_keyed (map (fun a => (f a, a)) l)).

(** [needle] occurs in [hay]. *)
Definition substring_of (needle hay : string) : Prop :=
  exists pre suf, hay = pre +:+ needle +:+ suf.

Definition has_author (book : Book.t) : Prop := is_Some (Book.author book).

(** The name of the linked author (the empty string stands in when there is
    none; the statements that use it assume [has_author]). *)
Definition linked_name (book : Book.t) : string :=
  match Book.author book with
  | Some a => Author.name a
  | None => ""
  end.

(** The search predicate of the filter, case folded by [lower]. *)
Definition hit (lower : string -> string) (s : string) (book : Book.t) : bool :=
  contains (lower s) (lower (Book.title book)) ||
  contains (lower s) (lower (linked_name book)).

(** The books [Book.query.all()] returns in a world. *)
Definition all_books (w : world) : list Book.t :=
  map (load (store w)) (books (store w)).

(** The address asked for a book, and the entry before enrichment. *)
Definition lookup_url (book : Book.t) : string :=
  volumes_url +:+ format_str (Book.isbn book).

Definition base_info (book : Book.t) : book_info :=
  <["author_name" := of_author (Book.author book)]>
  (<["publication_year" := of_int (Book.publication_year book)]>
  (<["isbn" := of_str (Book.isbn book)]>
  (<["title" := PStr (Book.title book)]> ∅))).

(** What one lookup contributes: the cover value, or the exception that
    leaves the handler. *)
Definition lookup_result (o : http_outcome) : result pyval :=
  match o with
  | Fails => Raise RequestException
  | Returns r => cover_image r
  end.

(** The outcome of the lookup for the [i]-th book of a run that starts in
    [w]. *)
Definition outcome_at (w : world) (i : nat) (book : Book.t) : http_outcome :=
  net w (length (net_log w) + i)%nat (lookup_url book).

(** The cover values of a run over [books] whose first call is the [n]-th. *)
Fixpoint covers (net : nat -> string -> http_outcome) (n : nat) (books : list Book.t)
    : result (list pyval) :=
  match books with
  | [] => Ok []
  | book :: books' =>
      c ← lookup_result (net n (lookup_url book));
      cs ← covers net (S n) books';
      Ok (c :: cs)
  end.

(** The number of calls such a run makes: it stops at the first lookup that
    raises. *)
Fixpoint calls_made (net : nat -> string -> http_outcome) (n : nat) (books : list Book.t) : nat :=
  match books with
  | [] => O
  | book :: books' =>
      match lookup_result (net n (lookup_url book)) with
      | Ok _ => S (calls_made net (S n) books')
      | Raise _ => 1%nat
      end
  end.

Definition with_cover (book : Book.t) (c : pyval) : book_info :=
  <["cover_image" := c]> (base_info book).

(** An entry shows a book: the four fields copied from it, the author as
    the object itself. *)
Definition shows (book : Book.t) (info : book_info) : Prop :=
  info !! "title" = Some (PStr (Book.title book)) /\
  info !! "isbn" = Some (of_str (Book.isbn book)) /\
  info !! "publication_year" = Some (of_int (Book.publication_year book)) /\
  info !! "author_name" = Some (of_author (Book.author book)).

(** The page [home] renders. *)
Definition listing (books_data : list book_info) : response :=
  Rendered "home.html" [("books", ABooks books_data)].

(** The first item of a decoded body carries the thumbnail value [v]. *)
Definition first_thumbnail (r : Response) (v : pyval) : Prop :=
  exists d item rest vi il,
    json_body r = Some (PDict d) /\
    assoc "items" d = Some (PList (PDict item :: rest)) /\
    assoc "volumeInfo" item = Some (PDict vi) /\
    assoc "imageLinks" vi = Some (PDict il) /\
    assoc "thumbnail" il = Some v.

(** ** Example worlds *)

Definition herbert : Author.t := Author.Make 1 "Herbert" None None.
Definition austen : Author.t := Author.Make 2 "Austen" None None.

Definition two_books : Store :=
  {| authors := [herbert; austen];
     books := [Book.Row 1 (Some "123") "Dune" (Some 1965) 1;
               Book.Row 2 (Some "456") "Emma" (Some 1815) 2] |}.

Definition dune : Book.t := Book.Make 1 (Some "123") "Dune" (Some 1965) 1 (Some herbert).
Definition emma : Book.t := Book.Make 2 (Some "456") "Emma" (Some 1815) 2 (Some austen).

Definition not_found : Response := {| status_code := 404; json_body := None |}.

Definition volume (thumbnail : pyval) : Response :=
  {| status_code := 200;
     json_body := Some (PDict [("items",
       PList [PDict [("volumeInfo",
         PDict [("imageLinks", PDict [("thumbnail", thumbnail)])])]])]) |}.

Definition not_json : Response := {| status_code := 200; json_body := None |}.

Definition always (o : http_outcome) : nat -> string -> http_outcome := fun _ _ => o.

(** The first call gets [o], the later ones a 404. *)
Definition first_then_404 (o : http_outcome) : nat -> string -> http_outcome :=
  fun n _ => match n with O => o | S _ => Returns not_found end.

Definition fresh (db : Store) (net : nat -> string -> http_outcome) : world :=
  World db [] net [].

Definition get_request (args : list (string * string)) : Request :=
  {| method := GET; args := args |}.

(** A decoded body without matching records: no ['items'] key, or an empty
    list under it. *)
Definition no_items (r : Response) : Prop :=
  exists d, json_body r = Some (PDict d) /\
            (assoc "items" d = None \/ assoc "items" d = Some (PList [])).

(** The first item of a decoded body has no thumbnail key. *)
Definition no_thumbnail (r : Response) : Prop :=
  exists d item rest vi,
    json_body r = Some (PDict d) /\
    assoc "items" d = Some (PList (PDict item :: rest)) /\
    assoc "volumeInfo" item = Some (PDict vi) /\
    (assoc "imageLinks" vi = None \/
     exists il, assoc "imageLinks" vi = Some (PDict il) /\ assoc "thumbnail" il = None).

Definition view_keys : gset string :=
  {[ "title"; "isbn"; "publication_year"; "author_name"; "cover_image" ]}.


(** ** Vocabulary of the further properties *)

(** A book the filter cannot decide: no linked author, and a title that
    does not contain the query. *)
Definition undecided (lower : string -> string) (s : string) (book : Book.t) : bool :=
  negb (contains (lower s) (lower (Book.title book))) &&
  bool_decide (Book.author book = None).

Definition is_dict (v : pyval) : bool :=
  match v with
  | PDict _ => true
  | _ => false
  end.

(** A decoded body that is a JSON scalar. *)
Definition is_scalar (v : pyval) : bool :=
  match v with
  | PNone | PBool _ | PInt _ | PFloat _ => true
  | _ => false
  end.

(** The decoded body is an object whose ['items'] list starts with the
    object [item]. *)
Definition first_item (r : Response) (item : list (string * pyval)) : Prop :=
  exists d rest,
    json_body r = Some (PDict d) /\
    assoc "items" d = Some (PList (PDict item :: rest)).

(** Example answers with a body of the wrong shape. *)
Definition null_image_links : Response :=
  {| status_code := 200;
     json_body := Some (PDict [("items",
       PList [PDict [("volumeInfo", PDict [("imageLinks", PNone)])]])]) |}.

Definition bare_item : Response :=
  {| status_code := 200; json_body := Some (PDict [("items", PList [PDict []])]) |}.

Definition null_body : Response := {| status_code := 200; json_body := Some PNone |}.

(** A book row whose author id has no author row. *)
Definition orphan : Book.t := Book.Make 3 None "Dune Messiah" None 9 None.

(** ** Inserts ([Author.add_author], [Book.add_book])

    The effect of [db.session.add] followed by [db.session.commit] on the
    store, and the object returned.  The primary key is chosen by the
    database: [next_id] stands for its choice given the keys in use, and the
    properties below assume of it only that the key is not in use.  Rows are
    kept in the order of insertion.  The arguments have the types the
    docstrings give them; the store does not check that [author_id] refers
    to an author.  The integer columns hold 64 bits: for an integer outside
    that range ([fits_int64]) the driver raises [OverflowError] and nothing
    is stored, so [Book_add_book] describes the insert of integers in
    range only. *)

Section Inserts.
Variable next_id : list Z -> Z.

Definition Author_add_author (name : string) (birth_date date_of_death : option date)
    (db : Store) : Author.t * Store :=
  let author :=
    Author.Make (next_id (map Author.id (authors db))) name birth_date date_of_death in
  (author, {| authors := authors db ++ [author]; books := books db |}).

Definition Book_add_book (title : string) (isbn : option string)
    (publication_year : option Z) (author_id : Z) (db : Store) : Book.t * Store :=
  let row := Book.Row (next_id (map Book.row_id (books db))) isbn title
                      publication_year author_id in
  let db' := {| authors := authors db; books := books db ++ [row] |} in
  (load db' row, db').
End Inserts.

(** The range of an integer column. *)
Definition fits_int64 (n : Z) : Prop := - 2 ^ 63 <= n < 2 ^ 63.

Definition fits_int64_opt (o : option Z) : Prop :=
  match o with
  | Some n => fits_int64 n
  | None => True
  end.

(** The allocator is sound when the key it gives is new. *)
Definition allocates_fresh (next_id : list Z -> Z) : Prop :=
  forall ids, ~ In (next_id ids) ids.

(** One more than the largest key in use (1 for an empty table): the choice
    used in the examples. *)
Definition succ_max (ids : list Z) : Z := 1 + fold_right Z.max 0 ids.

(** The primary keys of both tables are unique. *)
Definition keys_unique (db : Store) : Prop :=
  NoDup (map Author.id (authors db)) /\ NoDup (map Book.row_id (books db)).

(** A world over a given store. *)
Definition with_store (w : world) (db : Store) : world :=
  World db (db_log w) (net w) (net_log w).

(** ** The author form ([add_author] of [app.py])

    The view reads [request.form], which the listing does not: a request
    to it is a [FormRequest].  It can fail in two ways of its own: a missing
    form field ([request.form[key]] raises [BadRequestKeyError], answered
    with status 400) and a date that [strptime] rejects ([ValueError]).
    [strptime data format] stands for
    [datetime.strptime(data, format).date()], [None] when it raises. *)

Inductive form_exn :=
| BadRequestKeyError (key : string)
| ValueError.

Inductive form_result (A : Type) :=
| Done (a : A)
| Aborted (e : form_exn).
Arguments Done {A} a.
Arguments Aborted {A} e.

Record FormRequest := { form_method : http_method; form : list (string * string) }.

Inductive form_page :=
| FormPage (template : string) (context : list (string * string)).

Definition F (A : Type) : Type := Store -> form_result A * Store.

#[global] Instance F_ret : MRet F := fun A a db => (Done a, db).
#[global] Instance F_bind : MBind F := fun A B f m db =>
  match m db with
  | (Done a, db') => f a db'
  | (Aborted e, db') => (Aborted e, db')
  end.

(** [request.form[key]] *)
Definition form_getitem (request : FormRequest) (key : string) : F string := fun db =>
  match assoc key (form request) with
  | Some v => (Done v, db)
  | None => (Aborted (BadRequestKeyError key), db)
  end.

Section AuthorForm.
Variable next_id : list Z -> Z.
Variable strptime : string -> string -> option date.

Definition parse_date (data : string) : F date := fun db =>
  match strptime data "%Y-%m-%d" with
  | Some d => (Done d, db)
  | None => (Aborted ValueError, db)
  end.

(** The call of [Author.add_author] from the view. *)
Definition call_add_author (name : string) (birth_date date_of_death : option date)
    : F Author.t := fun db =>
  let added := Author_add_author next_id name birth_date date_of_death db in
  (Done (fst added), snd added).

Definition add_author (request : FormRequest) : F form_page :=
  if bool_decide (form_method request = POST) then
    name ← form_getitem request "name";
    birth ← form_getitem request "birth_date";
    birth_date ← parse_date birth;
    death ← form_getitem request "date_of_death";
    date_of_death ← parse_date death;
    _ ← call_add_author name (Some birth_date) (Some date_of_death);
    mret (FormPage "add_author.html" [("message", "Author added successfully!")])
  else mret (FormPage "add_author.html" []).
End AuthorForm.

(** An instance of [strptime] for the examples: dates written [YYYY-MM-DD]
    in ASCII digits. *)
Definition digit (c : ascii) : option Z :=
  let n := Z.of_N (N_of_ascii c) in
  if (48 <=? n) && (n <=? 57) then Some (n - 48) else None.

Definition strptime_iso (data format : string) : option date :=
  if String.eqb format "%Y-%m-%d" then
    match list_ascii_of_string data with
    | [y1; y2; y3; y4; s1; m1; m2; s2; d1; d2] =>
        if Ascii.eqb s1 "-" && Ascii.eqb s2 "-" then
          y1 ← digit y1; y2 ← digit y2; y3 ← digit y3; y4 ← digit y4;
          m1 ← digit m1; m2 ← digit m2; d1 ← digit d1; d2 ← digit d2;
          let y := 1000 * y1 + 100 * y2 + 10 * y3 + y4 in
          let m := 10 * m1 + m2 in
          let d := 10 * d1 + d2 in
          if (1 <=? y) && (1 <=? m) && (m <=? 12) && (1 <=? d) && (d <=? 31)
          then Some (Date y m d) else None
        else None
    | _ => None
    end
  else None.

Definition post_form (fields : list (string * string)) : FormRequest :=
  {| form_method := POST; form := fields |}.

(** * Properties *)

(** ** Substrings *)

Lemma prefix_spec (needle hay : string) :
  String.prefix needle hay = true <-> exists suf, hay = needle +:+ suf.
Proof.
  revert hay. induction needle as [|a needle IH]; intros hay; simpl.
  - split; [intros _; exists hay; reflexivity | destruct hay; reflexivity].
  - destruct hay as [|b hay]; simpl.
    + split; [discriminate | intros [suf H]; discriminate].
    + destruct (ascii_dec a b) as [->|Hne].
      * rewrite IH. split; intros [suf H]; exists suf.
        -- rewrite H. reflexivity.
        -- change (String b hay = String b (needle +:+ suf)) in H. congruence.
      * split; [discriminate | intros [suf H]].
        change (String b hay = String a (needle +:+ suf)) in H. congruence.
Qed.

Lemma contains_spec (needle hay : string) :
  contains needle hay = true <-> exists pre suf, hay = pre +:+ needle +:+ suf.
Proof.
  induction hay as [|c hay IH]; cbn [contains].
  - rewrite orb_false_r, prefix_spec. split.
    + intros [suf H]. exists "", suf. exact H.
    + intros [pre [suf H]]. destruct pre; [exists suf; exact H | discriminate].
  - rewrite orb_true_iff, prefix_spec, IH. split.
    + intros [[suf H] | [pre [suf H]]].
      * exists "", suf. exact H.
      * exists (String c pre), suf. rewrite H. reflexivity.
    + intros [pre [suf H]]. destruct pre as [|c' pre].
      * left. exists suf. exact H.
      * right. exists pre, suf.
        change (String c hay = String c' (pre +:+ needle +:+ suf)) in H. congruence.
Qed.

Lemma contains_empty (hay : string) : contains "" hay = true.
Proof. apply contains_spec. exists "", hay. reflexivity. Qed.

(** ** The order on strings *)

Lemma ascii_compare_refl (a : ascii) : Ascii.compare a a = Eq.
Proof. unfold Ascii.compare. apply N.compare_refl. Qed.

Lemma string_compare_refl (s : string) : String.compare s s = Eq.
Proof. induction s as [|a s IH]; simpl; [reflexivity | rewrite ascii_compare_refl; exact IH]. Qed.

Lemma string_compare_lt_trans (s1 s2 s3 : string) :
  String.compare s1 s2 = Lt -> String.compare s2 s3 = Lt -> String.compare s1 s3 = Lt.
Proof.
  revert s2 s3. induction s1 as [|a s1 IH]; intros [|b s2] [|c s3]; simpl; try congruence.
  unfold Ascii.compare.
  destruct (N.compare_spec (N_of_ascii a) (N_of_ascii b)) as [Hab|Hab|Hab];
    destruct (N.compare_spec (N_of_ascii b) (N_of_ascii c)) as [Hbc|Hbc|Hbc];
    try congruence; intros H1 H2.
  - rewrite Hab, Hbc, N.compare_refl. eauto.
  - rewrite Hab. apply N.compare_lt_iff in Hbc. rewrite Hbc. reflexivity.
  - rewrite <- Hbc. apply N.compare_lt_iff in Hab. rewrite Hab. reflexivity.
  - assert (Hac : (N_of_ascii a < N_of_ascii c)%N) by lia.
    apply N.compare_lt_iff in Hac. rewrite Hac. reflexivity.
Qed.

Lemma string_leb_refl (s : string) : String.leb s s = true.
Proof. unfold String.leb. rewrite string_compare_refl. reflexivity. Qed.

Lemma string_leb_trans (s1 s2 s3 : string) :
  String.leb s1 s2 = true -> String.leb s2 s3 = true -> String.leb s1 s3 = true.
Proof.
  unfold String.leb.
  destruct (String.compare s1 s2) eqn:H12; try discriminate;
    destruct (String.compare s2 s3) eqn:H23; try discriminate; intros _ _.
  - apply String.compare_eq_iff in H12, H23. subst. rewrite string_compare_refl. reflexivity.
  - apply String.compare_eq_iff in H12. subst. rewrite H23. reflexivity.
  - apply String.compare_eq_iff in H23. subst. rewrite H12. reflexivity.
  - rewrite (string_compare_lt_trans _ _ _ H12 H23). reflexivity.
Qed.

Lemma string_ltb_leb (s1 s2 : string) : String.ltb s1 s2 = true -> String.leb s1 s2 = true.
Proof. unfold String.ltb, String.leb. destruct (String.compare s1 s2); congruence. Qed.

Lemma string_not_ltb_leb (s1 s2 : string) : String.ltb s1 s2 = false -> String.leb s2 s1 = true.
Proof.
  unfold String.ltb, String.leb. rewrite (String.compare_antisym s1 s2).
  destruct (String.compare s2 s1); simpl; congruence.
Qed.

Lemma string_ltb_neq (s1 s2 : string) : String.ltb s1 s2 = true -> s1 <> s2.
Proof.
  unfold String.ltb. intros H ->. rewrite string_compare_refl in H. discriminate.
Qed.

(** ** Sorting by key *)

Section SortFacts.
Context {A : Type}.
Implicit Types (x : string * A) (l : list (string * A)).

Lemma insert_by_key_perm x l : Permutation (x :: l) (insert_by_key x l).
Proof.
  induction l as [|y l IH]; simpl; [reflexivity|].
  destruct (String.ltb (fst y) (fst x)); [|reflexivity].
  rewrite perm_swap. apply perm_skip. exact IH.
Qed.

Lemma sort_keyed_perm l : Permutation l (sort_keyed l).
Proof.
  induction l as [|x l IH]; simpl; [reflexivity|].
  rewrite <- insert_by_key_perm. apply perm_skip. exact IH.
Qed.

Lemma insert_by_key_sorted x l :
  StronglySorted key_le l -> StronglySorted key_le (insert_by_key x l).
Proof.
  induction 1 as [|y l Hl IH Hy]; simpl.
  - constructor; constructor.
  - destruct (String.ltb (fst y) (fst x)) eqn:Hlt.
    + constructor; [exact IH|].
      rewrite <- insert_by_key_perm. constructor; [|exact Hy].
      apply string_ltb_leb. exact Hlt.
    + apply string_not_ltb_leb in Hlt.
      constructor; [constructor; assumption|].
      constructor; [exact Hlt|].
      eapply List.Forall_impl; [|exact Hy].
      intros z Hz. unfold key_le in *. eapply string_leb_trans; eassumption.
Qed.

Lemma sort_keyed_sorted l : StronglySorted key_le (sort_keyed l).
Proof.
  induction l as [|x l IH]; simpl; [constructor|].
  apply insert_by_key_sorted. exact IH.
Qed.

Lemma insert_by_key_stable k x l :
  List.filter (has_key k) (insert_by_key x l) = List.filter (has_key k) (x :: l).
Proof.
  induction l as [|y l IH]; [reflexivity|].
  cbn [insert_by_key]. destruct (String.ltb (fst y) (fst x)) eqn:Hlt; [|reflexivity].
  cbn [List.filter] in *. rewrite IH.
  destruct (has_key k x) eqn:Hx; [|reflexivity].
  assert (Hy : has_key k y = false).
  { unfold has_key in *. apply String.eqb_eq in Hx. apply String.eqb_neq.
    apply string_ltb_neq in Hlt. congruence. }
  rewrite Hy. reflexivity.
Qed.

Lemma sort_keyed_stable k l :
  List.filter (has_key k) (sort_keyed l) = List.filter (has_key k) l.
Proof.
  induction l as [|x l IH]; [reflexivity|].
  cbn [sort_keyed]. rewrite insert_by_key_stable.
  cbn [List.filter]. rewrite IH. reflexivity.
Qed.

Lemma filter_has_key_head k x l :
  has_key k x = true -> List.filter (has_key k) (x :: l) = x :: List.filter (has_key k) l.
Proof. intros H. cbn [List.filter]. rewrite H. reflexivity. Qed.

Lemma has_key_self x : has_key (fst x) x = true.
Proof. apply String.eqb_refl. Qed.

Lemma sorted_head_le x l y : StronglySorted key_le (x :: l) -> In y (x :: l) -> key_le x y.
Proof.
  intros Hs Hy. apply StronglySorted_inv in Hs. destruct Hs as [_ Hx].
  destruct Hy as [<- | Hy]; [apply string_leb_refl|].
  rewrite List.Forall_forall in Hx. apply Hx. exact Hy.
Qed.

Lemma filter_head_in k x l l' :
  List.filter (has_key k) l = x :: l' -> In x l /\ fst x = k.
Proof.
  intros H. assert (Hin : In x (List.filter (has_key k) l)) by (rewrite H; left; reflexivity).
  apply List.filter_In in Hin. destruct Hin as [Hin Hk].
  split; [exact Hin | apply String.eqb_eq; exact Hk].
Qed.

(** Two sorted lists with the same elements under every key, in the same
    order, are equal: the result of a stable sort is determined. *)
Lemma stable_sorted_unique l1 l2 :
  StronglySorted key_le l1 -> StronglySorted key_le l2 ->
  (forall k, List.filter (has_key k) l1 = List.filter (has_key k) l2) ->
  l1 = l2.
Proof.
  revert l2. induction l1 as [|x l1 IH]; intros l2 Hs1 Hs2 Hf.
  - destruct l2 as [|y l2]; [reflexivity|].
    specialize (Hf (fst y)). rewrite (filter_has_key_head _ y l2 (has_key_self y)) in Hf.
    discriminate Hf.
  - destruct l2 as [|y l2].
    { specialize (Hf (fst x)). rewrite (filter_has_key_head _ x l1 (has_key_self x)) in Hf.
      discriminate Hf. }
    assert (Hxy : fst x = fst y).
    { pose proof (Hf (fst x)) as Hx. pose proof (Hf (fst y)) as Hy.
      rewrite (filter_has_key_head _ x l1 (has_key_self x)) in Hx.
      rewrite (filter_has_key_head _ y l2 (has_key_self y)) in Hy.
      symmetry in Hx. apply filter_head_in in Hx, Hy.
      apply String.leb_antisym.
      - apply (sorted_head_le x l1 y Hs1). tauto.
      - apply (sorted_head_le y l2 x Hs2). tauto. }
    assert (Heq : x = y).
    { pose proof (Hf (fst x)) as Hx.
      rewrite (filter_has_key_head _ x l1 (has_key_self x)) in Hx.
      rewrite (filter_has_key_head (fst x) y l2) in Hx; [congruence|].
      rewrite Hxy. apply has_key_self. }
    subst y. f_equal. apply IH.
    + apply StronglySorted_inv in Hs1. tauto.
    + apply StronglySorted_inv in Hs2. tauto.
    + intros k. specialize (Hf k). cbn [List.filter] in Hf.
      destruct (has_key k x); congruence.
Qed.

(** So any sorted, order-keeping rearrangement of [l] is [sort_keyed l]. *)
Lemma sort_keyed_determined l l' :
  StronglySorted key_le l' ->
  (forall k, List.filter (has_key k) l' = List.filter (has_key k) l) ->
  l' = sort_keyed l.
Proof.
  intros Hs Hf. apply stable_sorted_unique; [exact Hs | apply sort_keyed_sorted|].
  intros k. rewrite Hf, sort_keyed_stable. reflexivity.
Qed.

(** [list.sort] with a key function that returns on every element. *)
Variable key : A -> result string.
Variable f : A -> string.

Lemma decorate_total (l : list A) :
  (forall a, In a l -> key a = Ok (f a)) ->
  decorate key l = Ok (map (fun a => (f a, a)) l).
Proof.
  induction l as [|a l IH]; intros H; [reflexivity|].
  cbn [decorate]. rewrite (H a (or_introl eq_refl)).
  cbn. rewrite IH; [reflexivity|].
  intros b Hb. apply H. right. exact Hb.
Qed.

Lemma list_sort_total (l : list A) :
  (forall a, In a l -> key a = Ok (f a)) ->
  list_sort key l = Ok (sorted_by_key f l).
Proof.
  intros H. unfold list_sort. rewrite (decorate_total l H). reflexivity.
Qed.

Lemma sorted_by_key_perm (l : list A) : Permutation l (sorted_by_key f l).
Proof.
  unfold sorted_by_key. rewrite <- sort_keyed_perm.
  rewrite map_map. cbn. rewrite map_id. reflexivity.
Qed.

Lemma sort_keyed_tagged (l : list A) :
  Forall (fun x => fst x = f (snd x)) (sort_keyed (map (fun a => (f a, a)) l)).
Proof.
  rewrite <- sort_keyed_perm. apply List.Forall_forall.
  intros x Hx. apply in_map_iff in Hx. destruct Hx as [a [<- _]]. reflexivity.
Qed.

Lemma sorted_by_key_sorted (l : list A) :
  StronglySorted (fun a b => String.leb (f a) (f b) = true) (sorted_by_key f l).
Proof.
  unfold sorted_by_key.
  pose proof (sort_keyed_sorted (map (fun a => (f a, a)) l)) as Hs.
  pose proof (sort_keyed_tagged l) as Ht.
  induction Hs as [|x xs Hxs IH Hx]; [constructor|].
  inversion Ht as [|? ? Hfx Hfxs]; subst.
  cbn [map]. constructor; [apply IH; exact Hfxs|].
  apply List.Forall_forall. intros b Hb.
  apply in_map_iff in Hb. destruct Hb as [y [<- Hy]].
  rewrite List.Forall_forall in Hx, Hfxs.
  rewrite <- Hfx, <- (Hfxs y Hy). apply Hx. exact Hy.
Qed.


End SortFacts.

(** ** Running the handlers *)

Lemma author_name_linked (book : Book.t) :
  has_author book -> author_name book = Ok (linked_name book).
Proof.
  unfold has_author, author_name, linked_name.
  intros [a Ha]. rewrite Ha. reflexivity.
Qed.

Section RunFacts.
Variable lower : string -> string.

Lemma matches_hit (s : string) (book : Book.t) :
  has_author book -> matches lower s book = Ok (hit lower s book).
Proof.
  intros Ha. unfold matches, hit.
  destruct (contains (lower s) (lower (Book.title book))); [reflexivity|].
  rewrite (author_name_linked book Ha). reflexivity.
Qed.

Lemma filter_books_total (s : string) (B : list Book.t) :
  Forall has_author B ->
  filter_books lower s B = Ok (List.filter (hit lower s) B).
Proof.
  induction 1 as [|book B Ha _ IH]; [reflexivity|].
  cbn [filter_books List.filter]. rewrite (matches_hit s book Ha), IH. reflexivity.
Qed.

Lemma hit_spec (s : string) (book : Book.t) :
  hit lower s book = true <->
  substring_of (lower s) (lower (Book.title book)) \/
  substring_of (lower s) (lower (linked_name book)).
Proof.
  unfold hit, substring_of. rewrite orb_true_iff, !contains_spec. reflexivity.
Qed.

Lemma sort_step_total (sort_by : option string) (B : list Book.t) :
  Forall has_author B -> exists B', sort_step sort_by B = Ok B' /\ Permutation B B'.
Proof.
  intros HB. unfold sort_step.
  destruct (bool_decide (sort_by = Some "title")).
  { rewrite (list_sort_total _ Book.title) by reflexivity.
    eexists; split; [reflexivity | apply sorted_by_key_perm]. }
  destruct (bool_decide (sort_by = Some "author")).
  { rewrite (list_sort_total _ linked_name).
    - eexists; split; [reflexivity | apply sorted_by_key_perm].
    - intros b Hb. apply author_name_linked.
      rewrite List.Forall_forall in HB. apply HB. exact Hb. }
  exists B. split; reflexivity.
Qed.

Lemma filter_step_total (search_query : option string) (B : list Book.t) :
  Forall has_author B ->
  exists B', filter_step lower search_query B = Ok B' /\ Forall has_author B'.
Proof.
  intros HB. unfold filter_step.
  destruct search_query as [q|]; [|eauto].
  destruct (truthy q); [|eauto].
  rewrite (filter_books_total q B HB).
  eexists; split; [reflexivity|].
  rewrite List.Forall_forall in *. intros b Hb.
  apply List.filter_In in Hb. apply HB. tauto.
Qed.

Lemma surviving_total (sort_by search_query : option string) (B : list Book.t) :
  Forall has_author B -> exists bs, surviving lower sort_by search_query B = Ok bs.
Proof.
  intros HB. unfold surviving.
  destruct (filter_step_total search_query B HB) as [B' [-> HB']].
  destruct (sort_step_total sort_by B' HB') as [bs [Hbs _]].
  exists bs. exact Hbs.
Qed.
End RunFacts.

Lemma book_entry_run (book : Book.t) (w : world) :
  book_entry book w =
  (match lookup_result (net w (length (net_log w)) (lookup_url book)) with
   | Ok c => Ok (with_cover book c)
   | Raise e => Raise e
   end,
   World (store w) (db_log w) (net w) (net_log w ++ [lookup_url book])).
Proof.
  unfold book_entry, requests_get, lookup_result, with_cover, base_info, lookup_url.
  cbv [mbind M_bind lift mret M_ret].
  destruct (net w (length (net_log w)) _) as [|r]; [reflexivity|].
  destruct (cover_image r); reflexivity.
Qed.

Lemma for_each_book_run (bs : list Book.t) (acc : list book_info) (w : world) :
  for_each_book bs acc w =
  (match covers (net w) (length (net_log w)) bs with
   | Ok cs => Ok (acc ++ zip_with with_cover bs cs)
   | Raise e => Raise e
   end,
   World (store w) (db_log w) (net w)
         (net_log w ++ map lookup_url (take (calls_made (net w) (length (net_log w)) bs) bs))).
Proof.
  revert acc w. induction bs as [|b bs IH]; intros acc w.
  - cbn. rewrite !app_nil_r. destruct w; reflexivity.
  - cbn [for_each_book covers calls_made].
    unfold mbind at 1, M_bind at 1. rewrite book_entry_run.
    destruct (lookup_result (net w (length (net_log w)) (lookup_url b))) as [c|e].
    + rewrite IH. cbn [store db_log net net_log].
      rewrite length_app, Nat.add_1_r. cbn [length].
      destruct (covers (net w) (S (length (net_log w))) bs) as [cs|e]; cbn;
        rewrite <- ?app_assoc; reflexivity.
    + reflexivity.
Qed.

Lemma home_run (lower : string -> string) (request : Request) (w : world) :
  home lower request w =
  match surviving lower (args_get request "sort_by") (args_get request "search_query")
                  (all_books w) with
  | Ok bs =>
      (match covers (net w) (length (net_log w)) bs with
       | Ok cs => Ok (listing (zip_with with_cover bs cs))
       | Raise e => Raise e
       end,
       World (store w) (db_log w ++ [SelectAllBooks]) (net w)
             (net_log w ++ map lookup_url (take (calls_made (net w) (length (net_log w)) bs) bs)))
  | Raise e =>
      (Raise e, World (store w) (db_log w ++ [SelectAllBooks]) (net w) (net_log w))
  end.
Proof.
  unfold home, surviving, all_books, Book_query_all.
  cbv [mbind M_bind result_bind lift mret M_ret].
  destruct (filter_step lower _ _) as [fs|e]; [|reflexivity].
  destruct (sort_step _ fs) as [bs|e]; [|reflexivity].
  rewrite for_each_book_run. cbn [store db_log net net_log].
  destruct (covers _ _ bs); reflexivity.
Qed.

(** ** The entries of a listing *)

Lemma with_cover_shows (book : Book.t) (c : pyval) : shows book (with_cover book c).
Proof.
  unfold shows, with_cover, base_info. repeat split; by simplify_map_eq.
Qed.

Lemma with_cover_cover (book : Book.t) (c : pyval) :
  with_cover book c !! "cover_image" = Some c.
Proof. unfold with_cover. by simplify_map_eq. Qed.

Lemma with_cover_delete (book : Book.t) (c : pyval) :
  delete "cover_image" (with_cover book c) = base_info book.
Proof.
  unfold with_cover. rewrite delete_insert_eq. apply delete_id.
  unfold base_info. by simplify_map_eq.
Qed.

Lemma with_cover_dom (book : Book.t) (c : pyval) :
  dom (with_cover book c) =
  ({[ "title"; "isbn"; "publication_year"; "author_name"; "cover_image" ]} : gset string).
Proof.
  unfold with_cover, base_info. rewrite !dom_insert_L, dom_empty_L. set_solver.
Qed.

Lemma covers_length net n (bs : list Book.t) (cs : list pyval) :
  covers net n bs = Ok cs -> length cs = length bs.
Proof.
  revert n cs. induction bs as [|b bs IH]; intros n cs; cbn [covers].
  - intros [= <-]. reflexivity.
  - destruct (lookup_result _) as [c|e]; [|discriminate]. cbn.
    destruct (covers net (S n) bs) as [cs'|e] eqn:Hcs; [|discriminate].
    intros [= <-]. cbn. f_equal. eapply IH. exact Hcs.
Qed.

Lemma covers_lookup net n (bs : list Book.t) (cs : list pyval) (i : nat) (b : Book.t) :
  covers net n bs = Ok cs -> bs !! i = Some b ->
  exists c, cs !! i = Some c /\ lookup_result (net (n + i)%nat (lookup_url b)) = Ok c.
Proof.
  revert n cs i. induction bs as [|b0 bs IH]; intros n cs i; cbn [covers]; [intros _ [=]|].
  destruct (lookup_result (net n (lookup_url b0))) as [c|e] eqn:Hc; [|discriminate]. cbn.
  destruct (covers net (S n) bs) as [cs'|e] eqn:Hcs; [|discriminate].
  intros [= <-]. destruct i as [|i]; cbn.
  - intros [= <-]. exists c. rewrite Nat.add_0_r. split; [reflexivity | exact Hc].
  - intros Hb. destruct (IH _ _ _ Hcs Hb) as [c' [H1 H2]].
    exists c'. split; [exact H1|]. rewrite <- Nat.add_succ_comm. exact H2.
Qed.

Lemma covers_total net n (bs : list Book.t) :
  (forall i b, bs !! i = Some b -> exists c, lookup_result (net (n + i)%nat (lookup_url b)) = Ok c) ->
  exists cs, covers net n bs = Ok cs /\ calls_made net n bs = length bs.
Proof.
  revert n. induction bs as [|b bs IH]; intros n H; cbn [covers calls_made].
  - exists []. split; reflexivity.
  - destruct (H O b eq_refl) as [c Hc]. rewrite Nat.add_0_r in Hc. rewrite Hc. cbn.
    destruct (IH (S n)) as [cs [Hcs Hn]].
    { intros i b' Hb'. rewrite Nat.add_succ_comm. apply (H (S i) b'). exact Hb'. }
    rewrite Hcs, Hn. exists (c :: cs). split; reflexivity.
Qed.

Lemma covers_raise net n (bs : list Book.t) (i : nat) (b : Book.t) (e : exn) :
  bs !! i = Some b -> lookup_result (net (n + i)%nat (lookup_url b)) = Raise e ->
  exists e', covers net n bs = Raise e'.
Proof.
  revert n i. induction bs as [|b0 bs IH]; intros n i; [intros [=]|].
  cbn [covers]. destruct i as [|i]; cbn.
  - intros [= <-]. rewrite Nat.add_0_r. intros ->. exists e. reflexivity.
  - intros Hb He. destruct (lookup_result (net n (lookup_url b0))); [|eauto]. cbn.
    rewrite <- Nat.add_succ_comm in He. destruct (IH _ _ Hb He) as [e' ->]. eauto.
Qed.

Lemma calls_made_le net n (bs : list Book.t) : (calls_made net n bs <= length bs)%nat.
Proof.
  revert n. induction bs as [|b bs IH]; intros n; cbn; [lia|].
  destruct (lookup_result _); [specialize (IH (S n))|]; lia.
Qed.


Lemma zip_with_cover_shows (bs : list Book.t) (cs : list pyval) :
  length cs = length bs -> Forall2 shows bs (zip_with with_cover bs cs).
Proof.
  revert cs. induction bs as [|b bs IH]; intros [|c cs]; cbn; try discriminate.
  - constructor.
  - intros [= H]. constructor; [apply with_cover_shows | apply IH; exact H].
Qed.

(** A listing is returned exactly when the filter, the sort and every
    lookup return. *)
Lemma home_listing (lower : string -> string) (request : Request) (w w' : world)
    (books_data : list book_info) :
  home lower request w = (Ok (listing books_data), w') ->
  exists bs cs,
    surviving lower (args_get request "sort_by") (args_get request "search_query")
              (all_books w) = Ok bs /\
    covers (net w) (length (net_log w)) bs = Ok cs /\
    length cs = length bs /\
    books_data = zip_with with_cover bs cs.
Proof.
  rewrite home_run.
  destruct (surviving _ _ _ _) as [bs|e]; [|discriminate].
  destruct (covers _ _ bs) as [cs|e] eqn:Hcs; [|discriminate].
  intros [= <- _]. exists bs, cs.
  split; [reflexivity|]. split; [exact Hcs|]. split; [|reflexivity].
  eapply covers_length. exact Hcs.
Qed.

Lemma surviving_split (lower : string -> string) (sort_by search_query : option string)
    (B bs : list Book.t) :
  surviving lower sort_by search_query B = Ok bs ->
  exists filtered, filter_step lower search_query B = Ok filtered /\
                   sort_step sort_by filtered = Ok bs.
Proof.
  unfold surviving. destruct (filter_step _ _ _) as [fs|e]; [|discriminate].
  cbn. intros H. exists fs. split; [reflexivity | exact H].
Qed.


(** ** The filter step *)

(** C2.  For every book set [B] whose books have their linked author and
    every non-empty search string [s], the filter step returns the books of
    [B], in their order, that satisfy [hit]; a book satisfies [hit] exactly
    when the lower-cased [s] is a substring of its lower-cased title or of
    its linked author's lower-cased name.  Without a search string the
    filter step returns [B] itself. *)
Theorem filter_step_exact (lower : string -> string) (B : list Book.t) (s : string) :
  s <> "" ->
  Forall has_author B ->
  filter_step lower (Some s) B = Ok (List.filter (hit lower s) B) /\
  (forall b a, Book.author b = Some a ->
     hit lower s b = true <->
     substring_of (lower s) (lower (Book.title b)) \/
     substring_of (lower s) (lower (Author.name a))) /\
  (forall b, In b (List.filter (hit lower s) B) <-> In b B /\ hit lower s b = true) /\
  filter_step lower None B = Ok B.
Proof.
  intros Hs HB. split; [|split; [|split]].
  - unfold filter_step. destruct s; [congruence|]. cbn [truthy].
    apply filter_books_total. exact HB.
  - intros b a Ha. rewrite hit_spec. unfold linked_name. rewrite Ha. reflexivity.
  - intros b. apply List.filter_In.
  - reflexivity.
Qed.

Lemma filter_step_exact_witness :
  "du" <> "" /\ Forall has_author [dune; emma] /\
  filter_step ascii_lower (Some "du") [dune; emma] = Ok [dune] /\
  filter_step ascii_lower (Some "AUST") [dune; emma] = Ok [emma].
Proof.
  assert (H1 : "du" <> "") by discriminate.
  assert (H2 : "AUST" <> "") by discriminate.
  assert (HB : Forall has_author [dune; emma]).
  { repeat constructor; eexists; reflexivity. }
  split; [exact H1|]. split; [exact HB|]. split.
  - rewrite (proj1 (filter_step_exact ascii_lower [dune; emma] "du" H1 HB)). reflexivity.
  - rewrite (proj1 (filter_step_exact ascii_lower [dune; emma] "AUST" H2 HB)). reflexivity.
Defined.

(** C6.  A search query that is present but empty is treated as absent:
    the filter step returns every book, as it does without a query, the
    whole set reaches the sort step, and [home] answers a request with
    [search_query=] as it answers the same request without the parameter. *)
Theorem empty_search_query_keeps_all (lower : string -> string) (B : list Book.t) :
  filter_step lower (Some "") B = Ok B /\
  filter_step lower (Some "") B = filter_step lower None B /\
  (forall sort_by, surviving lower sort_by (Some "") B = sort_step sort_by B) /\
  (forall request request' w,
     args_get request "search_query" = Some "" ->
     args_get request' "search_query" = None ->
     args_get request' "sort_by" = args_get request "sort_by" ->
     home lower request w = home lower request' w).
Proof.
  split; [reflexivity|]. split; [reflexivity|]. split; [reflexivity|].
  intros request request' w Hq Hq' Hs.
  rewrite !home_run, Hq, Hq', Hs. reflexivity.
Qed.

Lemma empty_search_query_keeps_all_witness :
  filter_step ascii_lower (Some "") [dune; emma] = Ok [dune; emma] /\
  home ascii_lower (get_request [("search_query", "")])
       (fresh two_books (always (Returns not_found))) =
  home ascii_lower (get_request []) (fresh two_books (always (Returns not_found))).
Proof.
  destruct (empty_search_query_keeps_all ascii_lower [dune; emma]) as [H1 [_ [_ H2]]].
  split; [exact H1|]. apply H2; reflexivity.
Defined.

(** ** The sort step *)



(** The order is the byte order: capitals come before small letters. *)
Lemma sort_step_case_sensitive (a b : Book.t) :
  Book.title a = "apple" -> Book.title b = "Zebra" ->
  sort_step (Some "title") [a; b] = Ok [b; a].
Proof.
  intros Ha Hb. unfold sort_step. cbn. unfold list_sort. cbn. rewrite Ha, Hb. reflexivity.
Qed.

(** ** The cover value of a response *)

Lemma cover_image_not_200 (r : Response) :
  status_code r <> 200 -> cover_image r = Ok (PStr "").
Proof.
  intros H. unfold cover_image.
  destruct (Z.eqb_spec (status_code r) 200); [contradiction | reflexivity].
Qed.

Lemma cover_image_no_items (r : Response) :
  status_code r = 200 -> no_items r -> cover_image r = Ok (PStr "").
Proof.
  intros Hs [d [Hd Hi]]. unfold cover_image, Response_json.
  rewrite Hs, Hd. cbn. destruct Hi as [-> | ->]; reflexivity.
Qed.

Lemma cover_image_no_thumbnail (r : Response) :
  status_code r = 200 -> no_thumbnail r -> cover_image r = Ok (PStr "").
Proof.
  intros Hs [d [item [rest [vi [Hd [Hi [Hv Hl]]]]]]]. unfold cover_image, Response_json.
  rewrite Hs, Hd. cbn. rewrite Hi. cbn. rewrite Hv. cbn.
  destruct Hl as [-> | [il [-> Ht]]]; cbn; [reflexivity|].
  rewrite Ht. reflexivity.
Qed.

Lemma cover_image_thumbnail (r : Response) (v : pyval) :
  status_code r = 200 -> first_thumbnail r v -> cover_image r = Ok v.
Proof.
  intros Hs [d [item [rest [vi [il [Hd [Hi [Hv [Hl Ht]]]]]]]]].
  unfold cover_image, Response_json.
  rewrite Hs, Hd. cbn. rewrite Hi. cbn. rewrite Hv. cbn. rewrite Hl. cbn.
  rewrite Ht. reflexivity.
Qed.

Lemma cover_image_cases (r : Response) (c : pyval) :
  cover_image r = Ok c ->
  c = PStr "" \/ (status_code r = 200 /\ first_thumbnail r c).
Proof.
  unfold cover_image, Response_json, first_thumbnail.
  destruct (Z.eqb_spec (status_code r) 200) as [Hs|Hs]; [|intros [= <-]; left; reflexivity].
  destruct (json_body r) as [data|]; [|discriminate]. cbn.
  destruct data as [| | | | s | l | d | ]; cbn; try discriminate.
  - destruct (contains "items" s); cbn; [discriminate | intros [= <-]; left; reflexivity].
  - destruct (existsb (str_eq "items") l); cbn; [discriminate | intros [= <-]; left; reflexivity].
  - destruct (assoc "items" d) as [items|] eqn:Hi; cbn; [|intros [= <-]; left; reflexivity].
    destruct items as [| | | | s | l | d' | ]; cbn; try discriminate.
    + destruct (0 <? Z.of_nat (str_len s)); [|intros [= <-]; left; reflexivity].
      cbn. destruct (str_first s); cbn; discriminate.
    + destruct l as [|item rest]; cbn; [intros [= <-]; left; reflexivity|].
      destruct item as [| | | | | | item | ]; cbn; try discriminate.
      destruct (assoc "volumeInfo" item) as [vi|] eqn:Hv; cbn; [|discriminate].
      destruct vi as [| | | | | | vi | ]; cbn; try discriminate.
      destruct (assoc "imageLinks" vi) as [il|] eqn:Hl; cbn;
        [|intros [= <-]; left; reflexivity].
      destruct il as [| | | | | | il | ]; cbn; try discriminate.
      destruct (assoc "thumbnail" il) as [v|] eqn:Ht; intros [= <-];
        [|left; reflexivity].
      right. split; [exact Hs|]. exists d, item, rest, vi, il. auto.
    + destruct (0 <? Z.of_nat (length d')); cbn; [discriminate|].
      intros [= <-]; left; reflexivity.
Qed.

Lemma lookup_result_ok (o : http_outcome) (c : pyval) :
  lookup_result o = Ok c <-> exists r, o = Returns r /\ cover_image r = Ok c.
Proof.
  destruct o as [|r]; cbn.
  - split; [discriminate | intros [r [[=] _]]].
  - split; [eauto | intros [r' [[= <-] H]]; exact H].
Qed.

(** ** Enrichment inside the pipeline *)

Lemma home_total (lower : string -> string) (request : Request) (w : world) (bs : list Book.t) :
  surviving lower (args_get request "sort_by") (args_get request "search_query")
            (all_books w) = Ok bs ->
  (forall i b, bs !! i = Some b -> exists c, lookup_result (outcome_at w i b) = Ok c) ->
  exists cs,
    covers (net w) (length (net_log w)) bs = Ok cs /\
    length cs = length bs /\
    home lower request w =
      (Ok (listing (zip_with with_cover bs cs)),
       World (store w) (db_log w ++ [SelectAllBooks]) (net w)
             (net_log w ++ map lookup_url bs)).
Proof.
  intros Hbs Hall. destruct (covers_total (net w) (length (net_log w)) bs Hall) as [cs [Hcs Hn]].
  exists cs. split; [exact Hcs|]. split; [eapply covers_length; exact Hcs|].
  rewrite home_run, Hbs, Hcs, Hn, firstn_all. reflexivity.
Qed.

Lemma home_aborts (lower : string -> string) (request : Request) (w : world)
    (bs : list Book.t) (i : nat) (b : Book.t) (e : exn) :
  surviving lower (args_get request "sort_by") (args_get request "search_query")
            (all_books w) = Ok bs ->
  bs !! i = Some b ->
  lookup_result (outcome_at w i b) = Raise e ->
  exists e' w', home lower request w = (Raise e', w').
Proof.
  intros Hbs Hb He. rewrite home_run, Hbs.
  destruct (covers_raise (net w) (length (net_log w)) bs i b e Hb He) as [e' ->].
  eauto.
Qed.

Lemma entry_at (bs : list Book.t) (cs : list pyval) (i : nat) (b : Book.t) (c : pyval) :
  bs !! i = Some b -> cs !! i = Some c ->
  zip_with with_cover bs cs !! i = Some (with_cover b c).
Proof. intros Hb Hc. rewrite lookup_zip_with, Hb. cbn. rewrite Hc. reflexivity. Qed.

(** C1 (as amended).  A lookup answered with a status other than 200 gives
    the book the cover [""] and its entry is built with the book's own
    title, isbn, year and author; in a run whose lookups all return a value,
    every surviving book has its entry, and those answered with a status
    other than 200 carry [""].  A lookup that raises in [requests.get], or
    whose 200 answer has no JSON body, is not caught: the handler returns no
    listing. *)
Theorem status_failure_keeps_book (lower : string -> string) (request : Request)
    (w : world) (bs : list Book.t) :
  surviving lower (args_get request "sort_by") (args_get request "search_query")
            (all_books w) = Ok bs ->
  (forall book w0 r,
     net w0 (length (net_log w0)) (lookup_url book) = Returns r ->
     status_code r <> 200 ->
     exists info w0',
       book_entry book w0 = (Ok info, w0') /\ shows book info /\
       info !! "cover_image" = Some (PStr "")) /\
  ((forall i b, bs !! i = Some b -> exists c, lookup_result (outcome_at w i b) = Ok c) ->
   exists books_data w',
     home lower request w = (Ok (listing books_data), w') /\
     Forall2 shows bs books_data /\
     forall i b r, bs !! i = Some b -> outcome_at w i b = Returns r ->
       status_code r <> 200 ->
       exists info, books_data !! i = Some info /\ shows b info /\
                    info !! "cover_image" = Some (PStr "")) /\
  (forall i b, bs !! i = Some b ->
     outcome_at w i b = Fails \/
     (exists r, outcome_at w i b = Returns r /\ status_code r = 200 /\ json_body r = None) ->
     exists e w', home lower request w = (Raise e, w')).
Proof.
  intros Hbs. split; [|split].
  - intros book w0 r Hr Hs. rewrite book_entry_run, Hr. cbn [lookup_result].
    rewrite (cover_image_not_200 r Hs). eexists _, _. split; [reflexivity|].
    split; [apply with_cover_shows | apply with_cover_cover].
  - intros Hall. destruct (home_total lower request w bs Hbs Hall) as [cs [Hcs [Hlen Hrun]]].
    eexists _, _. split; [exact Hrun|]. split; [apply zip_with_cover_shows; exact Hlen|].
    intros i b r Hb Hr Hs.
    destruct (covers_lookup _ _ _ _ i b Hcs Hb) as [c [Hc Hres]].
    fold (outcome_at w i b) in Hres. rewrite Hr in Hres. cbn [lookup_result] in Hres.
    rewrite (cover_image_not_200 r Hs) in Hres. injection Hres as <-.
    exists (with_cover b (PStr "")). split; [apply entry_at; assumption|].
    split; [apply with_cover_shows | apply with_cover_cover].
  - intros i b Hb Hfail.
    assert (He : exists e, lookup_result (outcome_at w i b) = Raise e).
    { destruct Hfail as [-> | [r [-> [Hs Hj]]]]; cbn [lookup_result]; [eauto|].
      unfold cover_image, Response_json. rewrite Hs, Hj. cbn. eauto. }
    destruct He as [e He]. eapply home_aborts; eassumption.
Qed.

Lemma status_failure_keeps_book_witness :
  surviving ascii_lower None None (all_books (fresh two_books (always (Returns not_found))))
    = Ok [dune; emma] /\
  exists books_data w',
    home ascii_lower (get_request []) (fresh two_books (always (Returns not_found)))
      = (Ok (listing books_data), w') /\
    Forall2 shows [dune; emma] books_data.
Proof.
  assert (Hbs : surviving ascii_lower (args_get (get_request []) "sort_by")
                  (args_get (get_request []) "search_query")
                  (all_books (fresh two_books (always (Returns not_found))))
                = Ok [dune; emma]) by reflexivity.
  split; [exact Hbs|].
  destruct (status_failure_keeps_book ascii_lower (get_request []) _ _ Hbs) as [_ [H _]].
  destruct H as [books_data [w' [Hrun [Hshows _]]]].
  - intros i b Hb. exists (PStr ""). reflexivity.
  - exists books_data, w'. split; [exact Hrun | exact Hshows].
Defined.

(** The claim of C1 fails when the call itself raises: the first lookup of
    this run meets a transport error and the handler returns no listing,
    although both books survive the filter. *)
Lemma transport_error_aborts_listing :
  surviving ascii_lower None None (all_books (fresh two_books (first_then_404 Fails)))
    = Ok [dune; emma] /\
  fst (home ascii_lower (get_request []) (fresh two_books (first_then_404 Fails)))
    = Raise RequestException /\
  ~ exists books_data w',
      home ascii_lower (get_request []) (fresh two_books (first_then_404 Fails))
        = (Ok (listing books_data), w').
Proof.
  split; [reflexivity|]. split; [reflexivity|].
  intros [books_data [w' H]]. apply (f_equal fst) in H. discriminate H.
Qed.

(** C4 (as amended).  Every entry of a returned listing has one
    ['cover_image'] field, holding the value computed from the answer to
    that book's lookup.  That value is [""] when the status is not 200, when
    the body has no items, and when the first item has no thumbnail key;
    when the first item has a thumbnail, the value is that thumbnail as
    received, whatever its type: a string for a string, [None] for a null.
    No other value occurs. *)
Theorem cover_image_field (lower : string -> string) (request : Request) (w : world) :
  (forall w' books_data,
     home lower request w = (Ok (listing books_data), w') ->
     exists bs,
       surviving lower (args_get request "sort_by") (args_get request "search_query")
                 (all_books w) = Ok bs /\
       length books_data = length bs /\
       forall i b, bs !! i = Some b ->
         exists info r c,
           books_data !! i = Some info /\
           dom info = view_keys /\
           outcome_at w i b = Returns r /\
           cover_image r = Ok c /\
           info !! "cover_image" = Some c) /\
  (forall r,
     (status_code r <> 200 -> cover_image r = Ok (PStr "")) /\
     (status_code r = 200 -> no_items r -> cover_image r = Ok (PStr "")) /\
     (status_code r = 200 -> no_thumbnail r -> cover_image r = Ok (PStr "")) /\
     (forall v, status_code r = 200 -> first_thumbnail r v -> cover_image r = Ok v) /\
     (forall c, cover_image r = Ok c ->
        c = PStr "" \/ (status_code r = 200 /\ first_thumbnail r c))).
Proof.
  split.
  - intros w' books_data Hrun.
    destruct (home_listing _ _ _ _ _ Hrun) as [bs [cs [Hbs [Hcs [Hlen ->]]]]].
    exists bs. split; [exact Hbs|]. split.
    { rewrite length_zip_with. lia. }
    intros i b Hb. destruct (covers_lookup _ _ _ _ i b Hcs Hb) as [c [Hc Hres]].
    fold (outcome_at w i b) in Hres. apply lookup_result_ok in Hres.
    destruct Hres as [r [Hr Hcov]].
    exists (with_cover b c), r, c. split; [apply entry_at; assumption|].
    split; [apply with_cover_dom|]. split; [exact Hr|]. split; [exact Hcov|].
    apply with_cover_cover.
  - intros r. split; [apply cover_image_not_200|].
    split; [apply cover_image_no_items|].
    split; [apply cover_image_no_thumbnail|].
    split; [intros v; apply cover_image_thumbnail | apply cover_image_cases].
Qed.

(** The claim of C4 fails on the case it names: the matching record has a
    null thumbnail, and the entry's ['cover_image'] is [None], not a
    string. *)
Lemma null_thumbnail_gives_none :
  exists books_data w' info,
    home ascii_lower (get_request []) (fresh two_books (always (Returns (volume PNone))))
      = (Ok (listing books_data), w') /\
    books_data !! 0%nat = Some info /\
    info !! "cover_image" = Some PNone /\
    is_str PNone = false.
Proof.
  eexists _, _, _. split; [|split; [|split]].
  - rewrite home_run. reflexivity.
  - reflexivity.
  - apply with_cover_cover.
  - reflexivity.
Qed.

(** C5 (as amended).  When the books of the store have their authors the
    filter and the sort return the surviving books, and when moreover every
    lookup returns a value [home] returns a listing.  Every listing [home]
    returns has one entry per surviving book, in the order of the surviving
    books, each entry with exactly the five keys, the book's title, isbn and
    publication year, the author as the object itself under
    ['author_name'], and under ['cover_image'] the value computed from that
    book's lookup: a string, unless the first item of the answer carries a
    thumbnail that is not one, which is then kept as received. *)
Theorem listing_shape (lower : string -> string) (request : Request) (w : world) :
  (Forall has_author (all_books w) ->
   exists bs,
     surviving lower (args_get request "sort_by") (args_get request "search_query")
               (all_books w) = Ok bs) /\
  (forall bs,
     surviving lower (args_get request "sort_by") (args_get request "search_query")
               (all_books w) = Ok bs ->
     (forall i b, bs !! i = Some b ->
        exists c, lookup_result (outcome_at w i b) = Ok c) ->
     exists books_data w', home lower request w = (Ok (listing books_data), w')) /\
  (forall books_data w',
     home lower request w = (Ok (listing books_data), w') ->
     exists bs,
       surviving lower (args_get request "sort_by") (args_get request "search_query")
                 (all_books w) = Ok bs /\
       Forall2 (fun b info => shows b info /\ dom info = view_keys) bs books_data /\
       forall i b, bs !! i = Some b ->
         exists info c,
           books_data !! i = Some info /\
           info !! "cover_image" = Some c /\
           lookup_result (outcome_at w i b) = Ok c /\
           (is_str c = true \/
            exists r, outcome_at w i b = Returns r /\ status_code r = 200 /\
                      first_thumbnail r c)).
Proof.
  split; [apply surviving_total|]. split.
  - intros bs Hbs Hall.
    destruct (home_total lower request w bs Hbs Hall) as [cs [_ [_ Hrun]]].
    eexists _, _. exact Hrun.
  - intros books_data w' Hrun.
    destruct (home_listing _ _ _ _ _ Hrun) as [bs [cs [Hbs [Hcs [Hlen ->]]]]].
    exists bs. split; [exact Hbs|]. split.
    + apply Forall2_same_length_lookup. split; [rewrite length_zip_with; lia|].
      intros i b info Hb Hinfo.
      destruct (covers_lookup _ _ _ _ i b Hcs Hb) as [c [Hc _]].
      rewrite (entry_at bs cs i b c Hb Hc) in Hinfo. injection Hinfo as <-.
      split; [apply with_cover_shows | apply with_cover_dom].
    + intros i b Hb.
      destruct (covers_lookup _ _ _ _ i b Hcs Hb) as [c [Hc Hres]].
      fold (outcome_at w i b) in Hres.
      exists (with_cover b c), c. split; [apply entry_at; assumption|].
      split; [apply with_cover_cover|]. split; [exact Hres|].
      apply lookup_result_ok in Hres. destruct Hres as [r [Hr Hcov]].
      destruct (cover_image_cases r c Hcov) as [-> | [Hs Ht]]; [left; reflexivity|].
      right. exists r. auto.
Qed.

Lemma listing_shape_witness :
  Forall has_author (all_books (fresh two_books (always (Returns (volume (PInt 7))))))
  /\
  exists books_data w',
    home ascii_lower (get_request [("sort_by", "author")])
         (fresh two_books (always (Returns (volume (PInt 7)))))
      = (Ok (listing books_data), w') /\
    Forall2 (fun b info => shows b info /\ dom info = view_keys) [emma; dune] books_data.
Proof.
  split.
  - repeat constructor; eexists; reflexivity.
  - destruct (listing_shape ascii_lower (get_request [("sort_by", "author")])
                (fresh two_books (always (Returns (volume (PInt 7))))))
      as [_ [Hreturns Hshape]].
    destruct (Hreturns [emma; dune] eq_refl) as [books_data [w' Hrun]].
    { intros i b Hb. exists (PInt 7). reflexivity. }
    exists books_data, w'. split; [exact Hrun|].
    destruct (Hshape books_data w' Hrun) as [bs [Hbs [Hall _]]].
    assert (Heq : bs = [emma; dune]).
    { assert (H : surviving ascii_lower
                    (args_get (get_request [("sort_by", "author")]) "sort_by")
                    (args_get (get_request [("sort_by", "author")]) "search_query")
                    (all_books (fresh two_books (always (Returns (volume (PInt 7))))))
                  = Ok [emma; dune]) by reflexivity.
      rewrite H in Hbs. injection Hbs as <-. reflexivity. }
    rewrite <- Heq. exact Hall.
Defined.

(** The claim of C5 fails on the cover: the first item's thumbnail is a
    number, and the entry carries that number, not a string. *)
Lemma numeric_thumbnail_is_kept :
  exists books_data w' info,
    home ascii_lower (get_request []) (fresh two_books (always (Returns (volume (PInt 7)))))
      = (Ok (listing books_data), w') /\
    books_data !! 0%nat = Some info /\
    info !! "cover_image" = Some (PInt 7) /\
    is_str (PInt 7) = false.
Proof.
  eexists _, _, _. split; [|split; [|split]].
  - rewrite home_run. reflexivity.
  - reflexivity.
  - apply with_cover_cover.
  - reflexivity.
Qed.

(** C7 (as amended).  Two runs over the same store and the same request
    that both return a listing return entries for the same books in the
    same order, whatever the remote service answers in each: the listings
    agree once ['cover_image'] is removed from every entry. *)
Theorem covers_do_not_reorder (lower : string -> string) (request : Request)
    (w1 w2 w1' w2' : world) (data1 data2 : list book_info) :
  store w1 = store w2 ->
  home lower request w1 = (Ok (listing data1), w1') ->
  home lower request w2 = (Ok (listing data2), w2') ->
  delete "cover_image" <$> data1 = delete "cover_image" <$> data2 /\
  exists bs,
    surviving lower (args_get request "sort_by") (args_get request "search_query")
              (all_books w1) = Ok bs /\
    Forall2 shows bs data1 /\ Forall2 shows bs data2.
Proof.
  intros Hstore H1 H2.
  destruct (home_listing _ _ _ _ _ H1) as [bs1 [cs1 [Hbs1 [_ [Hlen1 ->]]]]].
  destruct (home_listing _ _ _ _ _ H2) as [bs2 [cs2 [Hbs2 [_ [Hlen2 ->]]]]].
  unfold all_books in Hbs1, Hbs2. rewrite Hstore in Hbs1.
  rewrite Hbs1 in Hbs2. injection Hbs2 as <-.
  assert (Hdel : forall cs, length cs = length bs1 ->
            delete "cover_image" <$> zip_with with_cover bs1 cs = base_info <$> bs1).
  { clear. induction bs1 as [|b bs IH]; intros [|c cs]; cbn; try discriminate; [reflexivity|].
    intros [= H]. rewrite with_cover_delete. f_equal. apply IH. exact H. }
  split; [rewrite !Hdel by assumption; reflexivity|].
  exists bs1. split; [unfold all_books; rewrite Hstore; exact Hbs1|].
  split; apply zip_with_cover_shows; assumption.
Qed.

Lemma covers_do_not_reorder_witness :
  exists data1 data2 w1' w2',
    home ascii_lower (get_request [("sort_by", "title")])
         (fresh two_books (always (Returns not_found))) = (Ok (listing data1), w1') /\
    home ascii_lower (get_request [("sort_by", "title")])
         (fresh two_books (always (Returns (volume (PStr "http://c"))))) = (Ok (listing data2), w2') /\
    delete "cover_image" <$> data1 = delete "cover_image" <$> data2.
Proof.
  eexists _, _, _, _.
  assert (H1 : home ascii_lower (get_request [("sort_by", "title")])
                 (fresh two_books (always (Returns not_found)))
               = (Ok (listing (zip_with with_cover [dune; emma] [PStr ""; PStr ""])),
                  World two_books [SelectAllBooks] (always (Returns not_found))
                        (map lookup_url [dune; emma]))).
  { rewrite home_run. reflexivity. }
  assert (H2 : home ascii_lower (get_request [("sort_by", "title")])
                 (fresh two_books (always (Returns (volume (PStr "http://c")))))
               = (Ok (listing (zip_with with_cover [dune; emma]
                                 [PStr "http://c"; PStr "http://c"])),
                  World two_books [SelectAllBooks] (always (Returns (volume (PStr "http://c"))))
                        (map lookup_url [dune; emma]))).
  { rewrite home_run. reflexivity. }
  split; [exact H1|]. split; [exact H2|].
  exact (proj1 (covers_do_not_reorder ascii_lower _
                  (fresh two_books (always (Returns not_found)))
                  (fresh two_books (always (Returns (volume (PStr "http://c")))))
                  _ _ _ _ eq_refl H1 H2)).
Defined.

(** The claim of C7 fails when an answer cannot be read: with a 404 for
    every lookup the listing has both books; with a 200 whose body is not
    JSON the same request over the same store returns no listing. *)
Lemma unreadable_answer_removes_listing :
  store (fresh two_books (always (Returns not_found))) =
  store (fresh two_books (always (Returns not_json))) /\
  (exists books_data w',
     home ascii_lower (get_request []) (fresh two_books (always (Returns not_found)))
       = (Ok (listing books_data), w') /\ length books_data = 2%nat) /\
  fst (home ascii_lower (get_request []) (fresh two_books (always (Returns not_json))))
    = Raise JSONDecodeError.
Proof.
  split; [reflexivity|]. split; [|reflexivity].
  eexists _, _. split; [rewrite home_run; reflexivity | reflexivity].
Qed.




Lemma cover_image_field_witness :
  cover_image not_found = Ok (PStr "") /\
  cover_image (volume (PStr "http://c")) = Ok (PStr "http://c") /\
  cover_image (volume PNone) = Ok PNone.
Proof.
  destruct (cover_image_field ascii_lower (get_request [])
              (fresh two_books (always Fails))) as [_ H].
  destruct (H not_found) as [H404 _].
  destruct (H (volume (PStr "http://c"))) as [_ [_ [_ [Hstr _]]]].
  destruct (H (volume PNone)) as [_ [_ [_ [Hnone _]]]].
  split; [|split].
  - apply H404. discriminate.
  - apply Hstr; [reflexivity|]. do 5 eexists. repeat split; reflexivity.
  - apply Hnone; [reflexivity|]. do 5 eexists. repeat split; reflexivity.
Defined.

(** ** The delete route *)

Lemma redirect_message_raises (location : string) (code : Z) (message : string) :
  redirect location [("code", PInt code); ("message", PStr message)] = Raise TypeError.
Proof. reflexivity. Qed.

Lemma route_get_runs_view (view : Request -> M response) (request : Request) :
  method request = GET \/ method request = HEAD ->
  route [GET] view request = view request.
Proof. unfold route. intros [-> | ->]; reflexivity. Qed.

Lemma route_get_rejects (view : Request -> M response) (request : Request) (w : world) :
  method request <> GET -> method request <> HEAD ->
  route [GET] view request w =
  (Ok (if bool_decide (method request = OPTIONS) then AutomaticOptions else MethodNotAllowed), w).
Proof. unfold route. destruct (method request); intros H1 H2; try reflexivity; congruence. Qed.

(** Called with [POST] the view function would delete the row: the branch
    is in the code, the route keeps requests from reaching it. *)
Lemma delete_book_post_branch (request : Request) (book_id : Z) (w : world) (r : Book.row) :
  method request = POST ->
  List.find (fun r => Book.row_id r =? book_id) (books (store w)) = Some r ->
  books (store (snd (delete_book request book_id w))) =
  List.filter (fun r' => negb (Book.row_id r' =? Book.row_id r)) (books (store w)).
Proof.
  intros Hm Hr. unfold delete_book, Book_query_get, Book_delete_book.
  cbv [mbind M_bind lift mret M_ret]. rewrite Hr, Hm. reflexivity.
Qed.

(** C9.  When the book id is in the store, no request to the delete route
    deletes: the store is unchanged and the only statement issued is the
    lookup of the book.  The view function runs for [GET] (and [HEAD]) only
    and returns the confirmation page of the book found; a [POST] is
    answered by the framework with "method not allowed" and never reaches
    the deleting branch. *)
Theorem delete_route_keeps_book (book_id : Z) (request : Request) (w : world) (r : Book.row) :
  List.find (fun r => Book.row_id r =? book_id) (books (store w)) = Some r ->
  store (snd (delete_book_route book_id request w)) = store w /\
  forallb (fun e => negb (is_write e))
          (drop (length (db_log w)) (db_log (snd (delete_book_route book_id request w)))) = true /\
  (method request = GET \/ method request = HEAD ->
   delete_book_route book_id request w =
   (Ok (render_template "delete_book.html" [("book", ABook (load (store w) r))]),
    World (store w) (db_log w ++ [SelectBook book_id]) (net w) (net_log w))) /\
  (method request = POST ->
   delete_book_route book_id request w = (Ok MethodNotAllowed, w)).
Proof.
  intros Hr.
  assert (Hview : forall req, method req <> POST ->
            delete_book req book_id w =
            (Ok (render_template "delete_book.html" [("book", ABook (load (store w) r))]),
             World (store w) (db_log w ++ [SelectBook book_id]) (net w) (net_log w))).
  { intros req Hm. unfold delete_book, Book_query_get.
    cbv [mbind M_bind lift mret M_ret]. rewrite Hr. cbn.
    rewrite bool_decide_eq_false_2 by exact Hm. reflexivity. }
  unfold delete_book_route.
  destruct (method request) eqn:Hm.
  1,2: rewrite route_get_runs_view by (rewrite Hm; auto);
       rewrite Hview by (rewrite Hm; discriminate);
       cbn [snd store db_log]; rewrite drop_app_length;
       (split; [reflexivity|]); (split; [reflexivity|]);
       (split; [reflexivity | discriminate]).
  all: rewrite route_get_rejects by (rewrite Hm; discriminate);
       cbn [snd]; rewrite drop_all, Hm;
       (split; [reflexivity|]); (split; [reflexivity|]);
       (split; [intros [H|H]; discriminate H | intros H; try discriminate H; reflexivity]).
Qed.

Lemma delete_route_keeps_book_witness :
  List.find (fun r => Book.row_id r =? 1) (books (store (fresh two_books (always Fails))))
    = Some (Book.Row 1 (Some "123") "Dune" (Some 1965) 1) /\
  store (snd (delete_book_route 1 {| method := POST; args := [] |}
                (fresh two_books (always Fails)))) = two_books /\
  fst (delete_book_route 1 (get_request []) (fresh two_books (always Fails)))
    = Ok (render_template "delete_book.html" [("book", ABook dune)]).
Proof.
  assert (H : List.find (fun r => Book.row_id r =? 1)
                (books (store (fresh two_books (always Fails))))
              = Some (Book.Row 1 (Some "123") "Dune" (Some 1965) 1)) by reflexivity.
  split; [exact H|]. split.
  - exact (proj1 (delete_route_keeps_book 1 {| method := POST; args := [] |} _ _ H)).
  - destruct (delete_route_keeps_book 1 (get_request []) _ _ H) as [_ [_ [Hget _]]].
    rewrite Hget by (left; reflexivity). reflexivity.
Defined.

(** C10.  When the book id is not in the store, the view function raises a
    [TypeError] from [redirect], which does not take the keyword
    [message]; no request to the route is answered with a redirect, and the
    store is unchanged. *)
Theorem delete_route_missing_book (book_id : Z) (request : Request) (w : world) :
  List.find (fun r => Book.row_id r =? book_id) (books (store w)) = None ->
  delete_book request book_id w =
    (Raise TypeError,
     World (store w) (db_log w ++ [SelectBook book_id]) (net w) (net_log w)) /\
  (method request = GET \/ method request = HEAD ->
   delete_book_route book_id request w = delete_book request book_id w) /\
  store (snd (delete_book_route book_id request w)) = store w /\
  ~ exists location code w',
      delete_book_route book_id request w = (Ok (Redirect location code), w').
Proof.
  intros Hr.
  assert (Hview : forall req, delete_book req book_id w =
            (Raise TypeError,
             World (store w) (db_log w ++ [SelectBook book_id]) (net w) (net_log w))).
  { intros req. unfold delete_book, Book_query_get.
    cbv [mbind M_bind lift mret M_ret]. rewrite Hr. reflexivity. }
  split; [apply Hview|]. unfold delete_book_route.
  split; [intros Hm; rewrite route_get_runs_view by exact Hm; reflexivity|].
  destruct (method request) eqn:Hm.
  1,2: rewrite route_get_runs_view by (rewrite Hm; auto); rewrite Hview;
       split; [reflexivity | intros [l [c [w' H]]]; discriminate H].
  all: rewrite route_get_rejects by (rewrite Hm; discriminate); rewrite Hm;
       split; [reflexivity | intros [l [c [w' H]]]; discriminate H].
Qed.

Lemma delete_route_missing_book_witness :
  List.find (fun r => Book.row_id r =? 7) (books (store (fresh two_books (always Fails))))
    = None /\
  fst (delete_book_route 7 (get_request []) (fresh two_books (always Fails)))
    = Raise TypeError /\
  store (snd (delete_book_route 7 (get_request []) (fresh two_books (always Fails))))
    = two_books.
Proof.
  assert (H : List.find (fun r => Book.row_id r =? 7)
                (books (store (fresh two_books (always Fails)))) = None) by reflexivity.
  split; [exact H|].
  destruct (delete_route_missing_book 7 (get_request []) _ H) as [Hview [Hroute [Hstore _]]].
  split; [|exact Hstore].
  rewrite Hroute by (left; reflexivity). rewrite Hview. reflexivity.
Defined.

(** * Further properties of the code *)

(** ** Sorting and filtering as operations on lists *)

Section SortAlgebra.
Context {A : Type}.
Implicit Types (x : string * A) (l : list (string * A)).

Lemma sort_keyed_sorted_id l : StronglySorted key_le l -> sort_keyed l = l.
Proof.
  intros Hs. symmetry. apply sort_keyed_determined; [exact Hs | reflexivity].
Qed.

Lemma insert_by_key_front x l :
  Forall (fun y => key_le x y) l -> insert_by_key x l = x :: l.
Proof.
  intros H. destruct l as [|y l]; [reflexivity|]. cbn [insert_by_key].
  apply Forall_inv in H. unfold key_le in H.
  destruct (String.ltb (fst y) (fst x)) eqn:Hlt; [|reflexivity].
  pose proof (string_ltb_leb _ _ Hlt) as Hle.
  pose proof (String.leb_antisym _ _ H Hle) as Heq.
  apply string_ltb_neq in Hlt. congruence.
Qed.

Lemma insert_by_key_filter (p : string * A -> bool) x l :
  StronglySorted key_le l ->
  List.filter p (insert_by_key x l) =
  if p x then insert_by_key x (List.filter p l) else List.filter p l.
Proof.
  induction 1 as [|y l Hl IH Hy]; cbn [insert_by_key List.filter].
  - destruct (p x); reflexivity.
  - destruct (String.ltb (fst y) (fst x)) eqn:Hlt; cbn [List.filter].
    + rewrite IH. destruct (p y), (p x); cbn [insert_by_key]; rewrite ?Hlt; reflexivity.
    + destruct (p x) eqn:Hpx; [|reflexivity].
      destruct (p y); cbn [insert_by_key]; rewrite ?Hlt; [reflexivity|].
      symmetry. apply insert_by_key_front.
      apply string_not_ltb_leb in Hlt.
      rewrite List.Forall_forall in *. intros z Hz.
      apply List.filter_In in Hz. destruct Hz as [Hz _].
      unfold key_le in *. eapply string_leb_trans; [exact Hlt | apply Hy; exact Hz].
Qed.

Lemma sort_keyed_filter (p : string * A -> bool) l :
  sort_keyed (List.filter p l) = List.filter p (sort_keyed l).
Proof.
  induction l as [|x l IH]; [reflexivity|].
  cbn [List.filter sort_keyed].
  rewrite insert_by_key_filter by apply sort_keyed_sorted.
  destruct (p x); cbn [sort_keyed]; rewrite IH; reflexivity.
Qed.

Variable f : A -> string.

Lemma sorted_by_key_filter (p : A -> bool) (l : list A) :
  sorted_by_key f (List.filter p l) = List.filter p (sorted_by_key f l).
Proof.
  unfold sorted_by_key.
  assert (Hmap : forall l0 : list (string * A),
             List.filter p (map snd l0) = map snd (List.filter (fun x => p (snd x)) l0)).
  { induction l0 as [|x l0 IH0]; [reflexivity|]. cbn [map List.filter].
    rewrite IH0. destruct (p (snd x)); reflexivity. }
  rewrite Hmap, <- sort_keyed_filter. f_equal. f_equal.
  induction l as [|a l IH]; [reflexivity|]. cbn [map List.filter snd].
  destruct (p a); cbn [map]; rewrite IH; reflexivity.
Qed.

Lemma sorted_by_key_idempotent (l : list A) :
  sorted_by_key f (sorted_by_key f l) = sorted_by_key f l.
Proof.
  unfold sorted_by_key at 1.
  assert (Htag : map (fun a => (f a, a)) (sorted_by_key f l) =
                 sort_keyed (map (fun a => (f a, a)) l)).
  { unfold sorted_by_key. pose proof (sort_keyed_tagged f l) as Ht.
    induction Ht as [|x xs Hx _ IH]; [reflexivity|].
    cbn [map]. rewrite IH, <- Hx. destruct x; reflexivity. }
  rewrite Htag, sort_keyed_sorted_id by apply sort_keyed_sorted. reflexivity.
Qed.

Variable key : A -> result string.

Lemma decorate_inv (l : list A) (keyed : list (string * A)) :
  decorate key l = Ok keyed ->
  map snd keyed = l /\ Forall (fun x => key (snd x) = Ok (fst x)) keyed.
Proof.
  revert keyed. induction l as [|a l IH]; intros keyed; cbn [decorate].
  - intros [= <-]. split; [reflexivity | constructor].
  - destruct (key a) as [k|e] eqn:Hk; [|discriminate]. cbn.
    destruct (decorate key l) as [keyed'|e]; [|discriminate]. cbn.
    intros [= <-]. destruct (IH keyed' eq_refl) as [H1 H2].
    split; [cbn; rewrite H1; reflexivity | constructor; [exact Hk | exact H2]].
Qed.

Lemma decorate_raise (l : list A) (e : exn) :
  decorate key l = Raise e -> Exists (fun a => key a = Raise e) l.
Proof.
  induction l as [|a l IH]; cbn [decorate]; [discriminate|].
  destruct (key a) as [k|e'] eqn:Hk; cbn.
  - destruct (decorate key l) as [keyed|e'']; cbn; [discriminate|].
    intros [= <-]. right. apply IH. reflexivity.
  - intros [= <-]. left. exact Hk.
Qed.

Lemma list_sort_ok_inv (l l' : list A) :
  list_sort key l = Ok l' -> Permutation l l' /\ Forall (fun a => exists k, key a = Ok k) l.
Proof.
  unfold list_sort. destruct (decorate key l) as [keyed|e] eqn:Hd; [|discriminate]. cbn.
  intros [= <-]. destruct (decorate_inv l keyed Hd) as [H1 H2]. split.
  - rewrite <- H1 at 1. apply Permutation_map. apply sort_keyed_perm.
  - rewrite <- H1. clear -H2. induction H2 as [|x xs Hx _ IH]; cbn; constructor; eauto.
Qed.
End SortAlgebra.

Lemma has_author_of_key (b : Book.t) : (exists k, author_name b = Ok k) -> has_author b.
Proof.
  unfold author_name, has_author. intros [k Hk].
  destruct (Book.author b); [eexists; reflexivity | discriminate].
Qed.

Lemma has_author_perm (B B' : list Book.t) :
  Permutation B B' -> Forall has_author B -> Forall has_author B'.
Proof. intros HP HB. rewrite <- HP. exact HB. Qed.

Lemma sort_step_author_total (B : list Book.t) :
  Forall has_author B -> sort_step (Some "author") B = Ok (sorted_by_key linked_name B).
Proof.
  intros HB. unfold sort_step. cbn. apply list_sort_total.
  intros b Hb. apply author_name_linked. rewrite List.Forall_forall in HB. auto.
Qed.

Lemma sort_step_title_total (B : list Book.t) :
  sort_step (Some "title") B = Ok (sorted_by_key Book.title B).
Proof. unfold sort_step. cbn. apply list_sort_total. reflexivity. Qed.

Lemma sort_step_cases (sort_by : option string) :
  sort_by = Some "title" \/ sort_by = Some "author" \/
  (forall B, sort_step sort_by B = Ok B).
Proof.
  destruct (decide (sort_by = Some "title")) as [->|Ht]; [auto|].
  destruct (decide (sort_by = Some "author")) as [->|Ha]; [auto|].
  right. right. intros B. unfold sort_step.
  rewrite !bool_decide_eq_false_2 by assumption. reflexivity.
Qed.

(** X1.  Sorting is idempotent: sorting a list the sort step returned, by
    the same directive, returns it unchanged. *)
Theorem sort_step_idempotent (sort_by : option string) (B B' : list Book.t) :
  sort_step sort_by B = Ok B' -> sort_step sort_by B' = Ok B'.
Proof.
  destruct (sort_step_cases sort_by) as [-> | [-> | Hid]].
  - rewrite !sort_step_title_total. intros [= <-].
    rewrite sorted_by_key_idempotent. reflexivity.
  - intros H. assert (HB : Forall has_author B).
    { unfold sort_step in H. cbn in H. apply list_sort_ok_inv in H.
      destruct H as [_ H]. eapply List.Forall_impl; [|exact H].
      intros b. apply has_author_of_key. }
    rewrite (sort_step_author_total B HB) in H. injection H as <-.
    rewrite sort_step_author_total.
    + rewrite sorted_by_key_idempotent. reflexivity.
    + eapply has_author_perm; [apply sorted_by_key_perm | exact HB].
  - rewrite !Hid. intros [= <-]. reflexivity.
Qed.

Lemma sort_step_idempotent_witness :
  sort_step (Some "author") [dune; emma] = Ok [emma; dune] /\
  sort_step (Some "author") [emma; dune] = Ok [emma; dune].
Proof.
  assert (H : sort_step (Some "author") [dune; emma] = Ok [emma; dune]) by reflexivity.
  split; [exact H | exact (sort_step_idempotent _ _ _ H)].
Defined.

Section FilterFacts.
Variable lower : string -> string.

Lemma matches_cases (s : string) (b : Book.t) :
  (undecided lower s b = true /\ matches lower s b = Raise AttributeError) \/
  (undecided lower s b = false /\ matches lower s b = Ok (hit lower s b)).
Proof.
  unfold undecided, matches, hit, author_name, linked_name.
  destruct (contains (lower s) (lower (Book.title b))); cbn; [right; auto|].
  destruct (Book.author b); cbn; [right; auto | left; auto].
Qed.

Lemma filter_books_cases (s : string) (B : list Book.t) :
  filter_books lower s B =
  if existsb (undecided lower s) B then Raise AttributeError
  else Ok (List.filter (hit lower s) B).
Proof.
  induction B as [|b B IH]; [reflexivity|].
  cbn [filter_books existsb List.filter]. rewrite IH.
  destruct (matches_cases s b) as [[-> ->] | [-> ->]]; cbn; [reflexivity|].
  destruct (existsb (undecided lower s) B); reflexivity.
Qed.

Lemma filter_step_sublist (search_query : option string) (B B' : list Book.t) :
  filter_step lower search_query B = Ok B' -> sublist B' B.
Proof.
  unfold filter_step. destruct search_query as [q|]; [|intros [= <-]; reflexivity].
  destruct (truthy q); [|intros [= <-]; reflexivity].
  rewrite filter_books_cases. destruct (existsb _ B); [discriminate|].
  intros [= <-]. clear. induction B as [|b B IH]; cbn; [constructor|].
  destruct (hit lower q b); [apply sublist_skip | apply sublist_cons]; exact IH.
Qed.
End FilterFacts.

(** X2.  On books that have their author, filtering and sorting commute:
    sorting the filtered books gives the same list as filtering the sorted
    books, for every search string and every sort directive. *)
Theorem filter_sort_commute (lower : string -> string) (sort_by search_query : option string)
    (B : list Book.t) :
  Forall has_author B ->
  filter_step lower search_query B ≫= sort_step sort_by =
  sort_step sort_by B ≫= filter_step lower search_query.
Proof.
  intros HB.
  assert (Hnone : forall q B0, Forall has_author B0 ->
            existsb (undecided lower q) B0 = false).
  { intros q B0 H0. induction H0 as [|b B0 [a Ha] _ IH]; [reflexivity|].
    cbn. rewrite IH. unfold undecided. rewrite Ha.
    rewrite bool_decide_eq_false_2 by discriminate. rewrite andb_false_r. reflexivity. }
  assert (Hsort : exists B', sort_step sort_by B = Ok B' /\ Permutation B B' /\
            forall p, sort_step sort_by (List.filter p B) = Ok (List.filter p B')).
  { destruct (sort_step_cases sort_by) as [-> | [-> | Hid]].
    - exists (sorted_by_key Book.title B). split; [apply sort_step_title_total|].
      split; [apply sorted_by_key_perm|]. intros p.
      rewrite sort_step_title_total, sorted_by_key_filter. reflexivity.
    - exists (sorted_by_key linked_name B). split; [apply sort_step_author_total; exact HB|].
      split; [apply sorted_by_key_perm|]. intros p.
      rewrite sort_step_author_total, sorted_by_key_filter; [reflexivity|].
      rewrite List.Forall_forall in *. intros b Hb. apply HB.
      apply List.filter_In in Hb. tauto.
    - exists B. split; [apply Hid|]. split; [reflexivity|]. intros p. apply Hid. }
  destruct Hsort as [B' [HB' [Hperm Hfilter]]].
  unfold filter_step. destruct search_query as [q|];
    [|unfold mbind, result_bind; rewrite HB'; reflexivity].
  destruct (truthy q); [|unfold mbind, result_bind; rewrite HB'; reflexivity].
  rewrite filter_books_cases, Hnone by exact HB.
  unfold mbind, result_bind. rewrite HB', Hfilter.
  rewrite filter_books_cases, Hnone; [reflexivity|].
  eapply has_author_perm; eassumption.
Qed.

Lemma filter_sort_commute_witness :
  Forall has_author [dune; emma] /\
  filter_step ascii_lower (Some "e") [dune; emma] ≫= sort_step (Some "author") = Ok [emma; dune] /\
  sort_step (Some "author") [dune; emma] ≫= filter_step ascii_lower (Some "e") = Ok [emma; dune].
Proof.
  assert (HB : Forall has_author [dune; emma]).
  { repeat constructor; eexists; reflexivity. }
  split; [exact HB|].
  pose proof (filter_sort_commute ascii_lower (Some "author") (Some "e") _ HB) as H.
  split; [reflexivity | rewrite <- H; reflexivity].
Defined.

(** X3.  The filter step only removes books: what it returns is a
    sub-sequence of its input, and filtering the result again with the same
    search string changes nothing. *)
Theorem filter_step_idempotent (lower : string -> string) (search_query : option string)
    (B B' : list Book.t) :
  filter_step lower search_query B = Ok B' ->
  sublist B' B /\ filter_step lower search_query B' = Ok B'.
Proof.
  intros H. split; [eapply filter_step_sublist; exact H|].
  revert H. unfold filter_step. destruct search_query as [q|]; [|intros _; reflexivity].
  destruct (truthy q); [|intros _; reflexivity].
  rewrite !filter_books_cases.
  destruct (existsb (undecided lower q) B) eqn:HB; [discriminate|]. intros [= <-].
  assert (Hu : existsb (undecided lower q) (List.filter (hit lower q) B) = false).
  { apply not_true_is_false. intros Hex. apply existsb_exists in Hex.
    destruct Hex as [b [Hb Hub]]. apply List.filter_In in Hb.
    assert (Hex : existsb (undecided lower q) B = true)
      by (apply existsb_exists; exists b; tauto).
    congruence. }
  rewrite Hu. f_equal. clear. induction B as [|b B IH]; [reflexivity|].
  cbn [List.filter]. destruct (hit lower q b) eqn:Hb; [|exact IH].
  cbn [List.filter]. rewrite Hb, IH. reflexivity.
Qed.

Lemma filter_step_idempotent_witness :
  filter_step ascii_lower (Some "du") [dune; emma] = Ok [dune] /\
  sublist [dune] [dune; emma] /\
  filter_step ascii_lower (Some "du") [dune] = Ok [dune].
Proof.
  assert (H : filter_step ascii_lower (Some "du") [dune; emma] = Ok [dune]) by reflexivity.
  split; [exact H | exact (filter_step_idempotent _ _ _ _ H)].
Defined.

(** X4.  The search reads [book.author.name] only for books whose title
    does not match.  If some book has no linked author and a title that
    does not contain the query, the filter raises [AttributeError];
    otherwise it returns the matching books, a book without author being
    kept when its title matches. *)
Theorem filter_step_missing_author (lower : string -> string) (s : string) (B : list Book.t) :
  s <> "" ->
  (existsb (undecided lower s) B = true ->
   filter_step lower (Some s) B = Raise AttributeError) /\
  (existsb (undecided lower s) B = false ->
   filter_step lower (Some s) B = Ok (List.filter (hit lower s) B)) /\
  (forall b, substring_of (lower s) (lower (Book.title b)) ->
     undecided lower s b = false /\ hit lower s b = true).
Proof.
  intros Hs. unfold filter_step. destruct s as [|a s]; [congruence|]. cbn [truthy].
  rewrite filter_books_cases. split; [intros ->; reflexivity|].
  split; [intros ->; reflexivity|].
  intros b Hb. apply contains_spec in Hb. unfold undecided, hit. rewrite Hb. auto.
Qed.

Lemma filter_step_missing_author_witness :
  "du" <> "" /\
  filter_step ascii_lower (Some "du")
    [orphan; emma] =
  Ok [orphan] /\
  filter_step ascii_lower (Some "em")
    [orphan; emma] = Raise AttributeError.
Proof.
  assert (Hs : "du" <> "") by discriminate.
  assert (Hs' : "em" <> "") by discriminate.
  split; [exact Hs|]. split.
  - destruct (filter_step_missing_author ascii_lower "du"
                [orphan; emma] Hs) as [_ [H _]].
    rewrite H; reflexivity.
  - destruct (filter_step_missing_author ascii_lower "em"
                [orphan; emma] Hs') as [H _].
    apply H. reflexivity.
Defined.

Lemma sort_by_author_raises (B : list Book.t) :
  sort_step (Some "author") B = Raise AttributeError <->
  Exists (fun b => Book.author b = None) B.
Proof.
  unfold sort_step. cbn. unfold list_sort. split.
  - destruct (decorate author_name B) as [keyed|e] eqn:Hd; [discriminate|].
    intros _. apply decorate_raise in Hd. eapply List.Exists_impl; [|exact Hd].
    intros b. unfold author_name. destruct (Book.author b); [discriminate | reflexivity].
  - intros Hex. destruct (decorate author_name B) as [keyed|e] eqn:Hd.
    + exfalso. apply decorate_inv in Hd. destruct Hd as [Hm Hk].
      rewrite <- Hm in Hex. clear Hm. induction Hk as [|x xs Hx _ IH]; cbn in Hex.
      * inversion Hex.
      * inversion Hex as [? ? Hn | ? ? Hn]; subst; [|auto].
        unfold author_name in Hx. rewrite Hn in Hx. discriminate.
    + apply decorate_raise in Hd. cbn. f_equal.
      apply List.Exists_exists in Hd. destruct Hd as [b [_ Hb]].
      unfold author_name in Hb. destruct (Book.author b); congruence.
Qed.

(** X5.  Sorting by author reads [book.author.name] of every book: it
    raises [AttributeError] exactly when some book has no linked author,
    whether or not the order would depend on that book.  Sorting by title,
    or not sorting, never raises. *)
Theorem sort_by_author_missing_author (B : list Book.t) :
  (sort_step (Some "author") B = Raise AttributeError <->
   Exists (fun b => Book.author b = None) B) /\
  (forall sort_by, sort_by <> Some "author" -> exists B', sort_step sort_by B = Ok B').
Proof.
  split; [apply sort_by_author_raises|].
  intros sort_by Hs. destruct (sort_step_cases sort_by) as [-> | [-> | Hid]].
  - eexists. apply sort_step_title_total.
  - congruence.
  - eexists. apply Hid.
Qed.

(** X6.  The search is insensitive to case: two non-empty queries with the
    same lower-cased form select the same books (or fail alike). *)
Theorem filter_step_case_insensitive (lower : string -> string) (s1 s2 : string)
    (B : list Book.t) :
  s1 <> "" -> s2 <> "" -> lower s1 = lower s2 ->
  filter_step lower (Some s1) B = filter_step lower (Some s2) B.
Proof.
  intros H1 H2 Hl. unfold filter_step.
  destruct s1; [congruence|]. destruct s2; [congruence|]. cbn [truthy].
  induction B as [|b B IH]; [reflexivity|].
  cbn [filter_books]. unfold matches. rewrite Hl, IH. reflexivity.
Qed.

Lemma filter_step_case_insensitive_witness :
  "DUNE" <> "" /\ "dune" <> "" /\ ascii_lower "DUNE" = ascii_lower "dune" /\
  filter_step ascii_lower (Some "DUNE") [dune; emma] = Ok [dune] /\
  filter_step ascii_lower (Some "dune") [dune; emma] = Ok [dune].
Proof.
  assert (H1 : "DUNE" <> "") by discriminate.
  assert (H2 : "dune" <> "") by discriminate.
  assert (Hl : ascii_lower "DUNE" = ascii_lower "dune") by reflexivity.
  split; [exact H1|]. split; [exact H2|]. split; [exact Hl|].
  rewrite (filter_step_case_insensitive ascii_lower _ _ [dune; emma] H1 H2 Hl).
  split; reflexivity.
Defined.

Lemma sort_by_author_missing_author_witness :
  sort_step (Some "author") [emma; orphan]
    = Raise AttributeError.
Proof.
  apply (proj1 (sort_by_author_missing_author _)).
  right. left. reflexivity.
Defined.

(** ** More on the listing pipeline *)

Lemma sort_step_perm (sort_by : option string) (B B' : list Book.t) :
  sort_step sort_by B = Ok B' -> Permutation B B'.
Proof.
  unfold sort_step.
  destruct (bool_decide (sort_by = Some "title"));
    [intros H; apply list_sort_ok_inv in H; tauto|].
  destruct (bool_decide (sort_by = Some "author"));
    [intros H; apply list_sort_ok_inv in H; tauto|].
  intros [= <-]. reflexivity.
Qed.

(** X7.  A listing never has more entries than the book table has rows,
    and without a search string (absent or empty) it has exactly one entry
    per row. *)
Theorem listing_length (lower : string -> string) (request : Request) (w w' : world)
    (books_data : list book_info) :
  home lower request w = (Ok (listing books_data), w') ->
  (length books_data <= length (books (store w)))%nat /\
  (args_get request "search_query" = None \/ args_get request "search_query" = Some "" ->
   length books_data = length (books (store w))).
Proof.
  intros Hrun. destruct (home_listing _ _ _ _ _ Hrun) as [bs [cs [Hbs [_ [Hlen ->]]]]].
  destruct (surviving_split _ _ _ _ _ Hbs) as [filtered [Hf Hs]].
  apply sort_step_perm, Permutation_length in Hs.
  rewrite length_zip_with, Hlen, Nat.min_id, <- Hs.
  unfold all_books in Hf. split.
  - apply filter_step_sublist, sublist_length in Hf. rewrite length_map in Hf. exact Hf.
  - intros Hq. assert (Hid : filtered = map (load (store w)) (books (store w))).
    { destruct Hq as [Hq | Hq]; rewrite Hq in Hf; cbn in Hf; congruence. }
    rewrite Hid, length_map. reflexivity.
Qed.

Lemma listing_length_witness :
  exists books_data w',
    home ascii_lower (get_request [("search_query", "du")])
         (fresh two_books (always (Returns not_found))) = (Ok (listing books_data), w') /\
    length books_data = 1%nat /\
    (length books_data <= length (books two_books))%nat.
Proof.
  eexists _, _.
  assert (H : home ascii_lower (get_request [("search_query", "du")])
                (fresh two_books (always (Returns not_found)))
              = (Ok (listing [with_cover dune (PStr "")]),
                 World two_books [SelectAllBooks] (always (Returns not_found))
                       [lookup_url dune])).
  { rewrite home_run. reflexivity. }
  split; [exact H|]. split; [reflexivity|].
  exact (proj1 (listing_length _ _ _ _ _ H)).
Defined.

(** X8.  The exceptions of the cover computation: it raises only on a 200
    answer, never an [IndexError] (the test [len(...) > 0] guards the
    subscript [[0]]); the exception is the [JSONDecodeError] of
    [response.json()] exactly when the body is not JSON, and otherwise a
    [TypeError], a [KeyError] or an [AttributeError]. *)
Theorem cover_image_exceptions (r : Response) (e : exn) :
  cover_image r = Raise e ->
  status_code r = 200 /\
  e <> IndexError /\
  (e = JSONDecodeError <-> json_body r = None) /\
  (e = JSONDecodeError \/ e = TypeError \/ e = KeyError \/ e = AttributeError).
Proof.
  unfold cover_image, Response_json.
  destruct (Z.eqb_spec (status_code r) 200) as [Hs|Hs]; [|discriminate].
  intros H. split; [exact Hs|]. revert H.
  destruct (json_body r) as [data|]; cbn;
    [|intros [= <-]; repeat split; auto; discriminate].
  assert (Hgoal : forall e0, e0 = TypeError \/ e0 = KeyError \/ e0 = AttributeError ->
            e0 <> IndexError /\
            (e0 = JSONDecodeError <-> Some data = None) /\
            (e0 = JSONDecodeError \/ e0 = TypeError \/ e0 = KeyError \/
             e0 = AttributeError)).
  { intros e0 He0. split; [|split; [split|]].
    - destruct He0 as [-> | [-> | ->]]; discriminate.
    - destruct He0 as [-> | [-> | ->]]; discriminate.
    - discriminate.
    - right. exact He0. }
  intros H. apply Hgoal. revert H. clear Hgoal.
  destruct data as [| | | | s | l | d | ]; cbn; try (intros [= <-]; auto).
  - destruct (contains "items" s); cbn; [intros [= <-]; auto | discriminate].
  - destruct (existsb (str_eq "items") l); cbn; [intros [= <-]; auto | discriminate].
  - destruct (assoc "items" d) as [items|]; cbn; [|discriminate].
    destruct items as [| | | | s | l | d' | ]; cbn; try (intros [= <-]; auto).
    + destruct (0 <? Z.of_nat (str_len s)) eqn:Hn; [|discriminate]. cbn.
      destruct s as [|c s]; [discriminate Hn|]. cbn. intros [= <-]; auto.
    + destruct l as [|item rest]; cbn; [discriminate|].
      destruct item as [| | | | | | item | ]; cbn; try (intros [= <-]; auto).
      destruct (assoc "volumeInfo" item) as [vi|]; cbn; [|intros [= <-]; auto].
      destruct vi as [| | | | | | vi | ]; cbn; try (intros [= <-]; auto).
      destruct (assoc "imageLinks" vi) as [il|]; cbn; [|discriminate].
      destruct il as [| | | | | | il | ]; cbn; try (intros [= <-]; auto).
      destruct (assoc "thumbnail" il); discriminate.
    + destruct (0 <? Z.of_nat (length d')); cbn; [intros [= <-]; auto | discriminate].
Qed.

Lemma cover_image_exceptions_witness :
  cover_image not_json = Raise JSONDecodeError /\ status_code not_json = 200.
Proof.
  assert (H : cover_image not_json = Raise JSONDecodeError) by reflexivity.
  split; [exact H | exact (proj1 (cover_image_exceptions _ _ H))].
Defined.

(** X9.  Answers with status 200 whose body decodes but has not the shape
    the code reads: a scalar body raises [TypeError], a first item without
    ['volumeInfo'] raises [KeyError], and an ['imageLinks'] that is present
    but not an object (a null, say) raises [AttributeError]. *)
Theorem cover_image_malformed (r : Response) :
  status_code r = 200 ->
  (forall v, json_body r = Some v -> is_scalar v = true ->
     cover_image r = Raise TypeError) /\
  (forall item, first_item r item -> assoc "volumeInfo" item = None ->
     cover_image r = Raise KeyError) /\
  (forall item vi il, first_item r item ->
     assoc "volumeInfo" item = Some (PDict vi) ->
     assoc "imageLinks" vi = Some il -> is_dict il = false ->
     cover_image r = Raise AttributeError).
Proof.
  intros Hs. unfold cover_image, Response_json. rewrite Hs. cbn [Z.eqb Pos.eqb].
  split; [|split].
  - intros v -> Hv. destruct v; try discriminate Hv; reflexivity.
  - intros item [d [rest [-> Hi]]] Hv. cbn. rewrite Hi. cbn. rewrite Hv. reflexivity.
  - intros item vi il [d [rest [-> Hi]]] Hv Hl Hd. cbn. rewrite Hi. cbn. rewrite Hv. cbn.
    rewrite Hl. cbn. destruct il; try discriminate Hd; reflexivity.
Qed.

Lemma cover_image_malformed_witness :
  status_code null_image_links = 200 /\
  cover_image null_image_links = Raise AttributeError /\
  cover_image bare_item = Raise KeyError /\
  cover_image null_body = Raise TypeError.
Proof.
  split; [reflexivity|]. split; [|split].
  - eapply (proj2 (proj2 (cover_image_malformed null_image_links eq_refl))).
    + do 2 eexists. split; reflexivity.
    + reflexivity.
    + reflexivity.
    + reflexivity.
  - eapply (proj1 (proj2 (cover_image_malformed bare_item eq_refl))).
    + do 2 eexists. split; reflexivity.
    + reflexivity.
  - eapply (proj1 (cover_image_malformed null_body eq_refl)); reflexivity.
Defined.

(** X10.  A book without ISBN is still looked up: the address asked for
    ends in the text [None], the same for every such book, and the entry
    carries [None] as its isbn. *)
Theorem lookup_without_isbn (book : Book.t) (w : world) :
  Book.isbn book = None ->
  net_log (snd (book_entry book w)) =
    net_log w ++ ["https://www.googleapis.com/books/v1/volumes?q=isbn:None"] /\
  (forall info w', book_entry book w = (Ok info, w') -> info !! "isbn" = Some PNone).
Proof.
  intros Hi. rewrite book_entry_run. unfold lookup_url. rewrite Hi. split; [reflexivity|].
  destruct (lookup_result _) as [c|e]; [|discriminate].
  intros info w' [= <- _]. unfold with_cover, base_info. rewrite Hi. by simplify_map_eq.
Qed.

Lemma lookup_without_isbn_witness :
  net_log (snd (book_entry orphan
                           (fresh two_books (always (Returns not_found)))))
    = ["https://www.googleapis.com/books/v1/volumes?q=isbn:None"].
Proof.
  exact (proj1 (lookup_without_isbn orphan
                 (fresh two_books (always (Returns not_found))) eq_refl)).
Defined.

(** ** The record store: inserts and deletes *)

Lemma succ_max_fresh : allocates_fresh succ_max.
Proof.
  intros ids Hin.
  assert (Hle : forall x, In x ids -> x <= fold_right Z.max 0 ids).
  { clear. induction ids as [|y ids IH]; cbn; [tauto|].
    intros x [-> | Hx]; [lia | specialize (IH x Hx); lia]. }
  specialize (Hle _ Hin). unfold succ_max in Hle. lia.
Qed.

Lemma find_filter_other {A} (p q : A -> bool) (l : list A) :
  (forall x, p x = true -> q x = true) ->
  List.find p (List.filter q l) = List.find p l.
Proof.
  intros H. induction l as [|x l IH]; [reflexivity|]. cbn.
  destruct (q x) eqn:Hq; cbn.
  - destruct (p x); [reflexivity | exact IH].
  - destruct (p x) eqn:Hp; [rewrite (H x Hp) in Hq; discriminate | exact IH].
Qed.

Lemma find_filter_none {A} (p q : A -> bool) (l : list A) :
  (forall x, p x = true -> q x = false) ->
  List.find p (List.filter q l) = None.
Proof.
  intros H. induction l as [|x l IH]; [reflexivity|]. cbn.
  destruct (q x) eqn:Hq; [|exact IH]. cbn.
  destruct (p x) eqn:Hp; [rewrite (H x Hp) in Hq; discriminate | exact IH].
Qed.

Lemma filter_all {A} (q : A -> bool) (l : list A) :
  (forall x, In x l -> q x = true) -> List.filter q l = l.
Proof.
  induction l as [|x l IH]; intros H; [reflexivity|]. cbn.
  rewrite (H x (or_introl eq_refl)). f_equal. apply IH. intros y Hy. apply H. right. exact Hy.
Qed.

Lemma find_app_fresh {A} (p : A -> bool) (l : list A) (x : A) :
  (forall y, In y l -> p y = false) -> p x = true ->
  List.find p (l ++ [x]) = Some x.
Proof.
  intros Hl Hx. induction l as [|y l IH]; cbn; [rewrite Hx; reflexivity|].
  rewrite (Hl y (or_introl eq_refl)). apply IH. intros z Hz. apply Hl. right. exact Hz.
Qed.

Lemma find_app_old {A} (p : A -> bool) (l : list A) (x y : A) :
  List.find p l = Some y -> List.find p (l ++ [x]) = Some y.
Proof.
  induction l as [|z l IH]; cbn; [discriminate|].
  destruct (p z); [auto | exact IH].
Qed.

Lemma load_id (db : Store) (r : Book.row) : Book.id (load db r) = Book.row_id r.
Proof. reflexivity. Qed.

(** X11.  After [delete_book] the book cannot be fetched by its id, every
    other id is answered as before, no author row is touched (the author of
    the deleted book stays), and the other books keep their order. *)
Theorem delete_book_removes (self : Book.t) (w : world) :
  fst (Book_query_get (Book.id self) (snd (Book_delete_book self w))) = Ok None /\
  (forall book_id, book_id <> Book.id self ->
     fst (Book_query_get book_id (snd (Book_delete_book self w))) =
     fst (Book_query_get book_id w)) /\
  authors (store (snd (Book_delete_book self w))) = authors (store w) /\
  all_books (snd (Book_delete_book self w)) =
    List.filter (fun b => negb (Book.id b =? Book.id self)) (all_books w).
Proof.
  unfold Book_query_get, Book_delete_book, all_books. cbn [fst snd store books authors].
  split; [|split; [|split]].
  - rewrite find_filter_none; [reflexivity|].
    intros r Hr. apply Z.eqb_eq in Hr. rewrite Hr, Z.eqb_refl. reflexivity.
  - intros book_id Hne. rewrite find_filter_other.
    + destruct (List.find _ _); reflexivity.
    + intros r Hr. apply Z.eqb_eq in Hr. apply negb_true_iff. apply Z.eqb_neq. congruence.
  - reflexivity.
  - erewrite map_ext; [|intros r; unfold load, find_author; cbn [authors]; reflexivity].
    induction (books (store w)) as [|r rs IH]; [reflexivity|]. cbn [List.filter map].
    rewrite load_id. destruct (Book.row_id r =? Book.id self); cbn [negb map];
      rewrite IH; reflexivity.
Qed.

(** X12.  Deleting is idempotent, and deleting a book whose id is not in
    the table leaves the store as it was. *)
Theorem delete_book_idempotent (self : Book.t) (w : world) :
  store (snd (Book_delete_book self (snd (Book_delete_book self w)))) =
  store (snd (Book_delete_book self w)) /\
  (~ In (Book.id self) (map Book.row_id (books (store w))) ->
   store (snd (Book_delete_book self w)) = store w).
Proof.
  unfold Book_delete_book. cbn [snd store books authors]. split.
  - f_equal. apply filter_all. intros r Hr. apply List.filter_In in Hr. tauto.
  - intros Hnot. destruct (store w) as [auths rows]. cbn in *. f_equal.
    apply filter_all. intros r Hr. apply negb_true_iff. apply Z.eqb_neq.
    intros Heq. apply Hnot. rewrite <- Heq. apply in_map. exact Hr.
Qed.

Lemma delete_book_idempotent_witness :
  ~ In (Book.id orphan) (map Book.row_id (books (store (fresh two_books (always Fails))))) /\
  store (snd (Book_delete_book orphan (fresh two_books (always Fails)))) = two_books.
Proof.
  assert (H : ~ In (Book.id orphan)
                (map Book.row_id (books (store (fresh two_books (always Fails)))))).
  { cbn. intros [H | [H | []]]; discriminate H. }
  split; [exact H|].
  exact (proj2 (delete_book_idempotent orphan (fresh two_books (always Fails))) H).
Defined.

Section InsertFacts.
Variable next_id : list Z -> Z.
Hypothesis next_id_fresh : allocates_fresh next_id.

Lemma fresh_author_unmatched (db : Store) (a : Author.t) :
  In a (authors db) ->
  (Author.id a =? next_id (map Author.id (authors db))) = false.
Proof.
  intros Ha. apply Z.eqb_neq. intros Heq.
  apply (next_id_fresh (map Author.id (authors db))). rewrite <- Heq. apply in_map. exact Ha.
Qed.

Lemma fresh_book_unmatched (db : Store) (r : Book.row) :
  In r (books db) ->
  (Book.row_id r =? next_id (map Book.row_id (books db))) = false.
Proof.
  intros Hr. apply Z.eqb_neq. intros Heq.
  apply (next_id_fresh (map Book.row_id (books db))). rewrite <- Heq. apply in_map. exact Hr.
Qed.

Lemma add_author_lookup (name : string) (birth_date date_of_death : option date)
    (db : Store) :
  find_author (snd (Author_add_author next_id name birth_date date_of_death db))
              (Author.id (fst (Author_add_author next_id name birth_date date_of_death db)))
  = Some (fst (Author_add_author next_id name birth_date date_of_death db)).
Proof.
  unfold Author_add_author, find_author. cbn [fst snd authors Author.id].
  apply find_app_fresh; [|apply Z.eqb_refl].
  intros a Ha. apply fresh_author_unmatched. exact Ha.
Qed.

(** X13.  [add_author] returns an author with the given fields; afterwards
    the author is found under its id, every author found before is still
    found, the book table is unchanged, and every book that had its author
    still has the same one. *)
Theorem add_author_found (name : string) (birth_date date_of_death : option date)
    (db : Store) :
  let author := fst (Author_add_author next_id name birth_date date_of_death db) in
  let db' := snd (Author_add_author next_id name birth_date date_of_death db) in
  Author.name author = name /\
  Author.birth_date author = birth_date /\
  Author.date_of_death author = date_of_death /\
  find_author db' (Author.id author) = Some author /\
  (forall author_id a, find_author db author_id = Some a ->
     find_author db' author_id = Some a) /\
  books db' = books db /\
  (forall r, has_author (load db r) -> load db' r = load db r).
Proof.
  cbn zeta. unfold Author_add_author, find_author. cbn [fst snd authors books Author.id
    Author.name Author.birth_date Author.date_of_death].
  split; [reflexivity|]. split; [reflexivity|]. split; [reflexivity|].
  split; [|split; [|split]].
  - apply add_author_lookup.
  - intros author_id a Ha. apply find_app_old. exact Ha.
  - reflexivity.
  - intros r [a Ha]. unfold load, find_author in *. cbn [Book.author authors] in *.
    f_equal. rewrite Ha. apply find_app_old. exact Ha.
Qed.

(** X14.  For integer arguments that fit the 64-bit columns, [add_book]
    returns a book with the given columns and with the author row of that
    id, if there is one: an [author_id] without author row is accepted and
    gives a book whose [author] is [None].  Afterwards the book is fetched
    under its id, it is the last of the books, and the author table is
    unchanged. *)
Theorem add_book_found (title : string) (isbn : option string)
    (publication_year : option Z) (author_id : Z) (db : Store) (w : world) :
  fits_int64_opt publication_year ->
  fits_int64 author_id ->
  let book := fst (Book_add_book next_id title isbn publication_year author_id db) in
  let db' := snd (Book_add_book next_id title isbn publication_year author_id db) in
  Book.title book = title /\ Book.isbn book = isbn /\
  Book.publication_year book = publication_year /\ Book.author_id book = author_id /\
  Book.author book = find_author db author_id /\
  fst (Book_query_get (Book.id book) (with_store w db')) = Ok (Some book) /\
  all_books (with_store w db') = all_books (with_store w db) ++ [book] /\
  authors db' = authors db.
Proof.
  intros _ _. cbn zeta. unfold Book_add_book, Book_query_get, all_books, with_store.
  cbn [fst snd store books authors].
  repeat (split; [reflexivity|]). split; [|split; [|reflexivity]].
  - rewrite (find_app_fresh _ (books db)); [reflexivity | | apply Z.eqb_refl].
    intros r Hr. apply fresh_book_unmatched. exact Hr.
  - rewrite map_app. reflexivity.
Qed.

(** X15.  Deleting the book [add_book] returned restores the store. *)
Theorem add_then_delete_book (title : string) (isbn : option string)
    (publication_year : option Z) (author_id : Z) (w : world) :
  let added := Book_add_book next_id title isbn publication_year author_id (store w) in
  store (snd (Book_delete_book (fst added) (with_store w (snd added)))) = store w.
Proof.
  cbn zeta. unfold Book_add_book, Book_delete_book, with_store.
  cbn [fst snd store books authors]. destruct (store w) as [auths rows]. cbn [authors books].
  f_equal. rewrite List.filter_app. cbn [List.filter load Book.id Book.row_id].
  rewrite Z.eqb_refl. cbn. rewrite app_nil_r. apply filter_all.
  intros r Hr. apply negb_true_iff.
  apply (fresh_book_unmatched {| authors := auths; books := rows |}). exact Hr.
Qed.

(** X16.  The primary keys stay unique under [add_author], [add_book] and
    [delete_book]. *)
Theorem keys_stay_unique (db : Store) :
  keys_unique db ->
  (forall name birth_date date_of_death,
     keys_unique (snd (Author_add_author next_id name birth_date date_of_death db))) /\
  (forall title isbn publication_year author_id,
     keys_unique (snd (Book_add_book next_id title isbn publication_year author_id db))) /\
  (forall self w, store w = db -> keys_unique (store (snd (Book_delete_book self w)))).
Proof.
  intros [Ha Hb]. unfold keys_unique, Author_add_author, Book_add_book, Book_delete_book.
  cbn [snd store authors books]. split; [|split].
  - intros name birth_date date_of_death. split; [|exact Hb].
    rewrite map_app. cbn. apply NoDup_app. split; [exact Ha|].
    split; [|apply NoDup_singleton].
    intros x Hx Hx'. apply list_elem_of_singleton in Hx'. subst x.
    apply list_elem_of_In in Hx. exact (next_id_fresh _ Hx).
  - intros title isbn publication_year author_id. split; [exact Ha|].
    rewrite map_app. cbn. apply NoDup_app. split; [exact Hb|].
    split; [|apply NoDup_singleton].
    intros x Hx Hx'. apply list_elem_of_singleton in Hx'. subst x.
    apply list_elem_of_In in Hx. exact (next_id_fresh _ Hx).
  - intros self w ->. split; [exact Ha|].
    clear Ha. induction (books db) as [|r rs IH]; cbn; [constructor|].
    apply NoDup_cons in Hb. destruct Hb as [Hr Hrs].
    destruct (negb (Book.row_id r =? Book.id self)); cbn; [|apply IH; exact Hrs].
    apply NoDup_cons. split; [|apply IH; exact Hrs].
    intros Hin. apply Hr. apply list_elem_of_In in Hin. apply list_elem_of_In.
    apply in_map_iff in Hin. destruct Hin as [r' [Heq Hr']].
    apply List.filter_In in Hr'. rewrite <- Heq. apply in_map. tauto.
Qed.
End InsertFacts.

Lemma add_author_found_witness :
  allocates_fresh succ_max /\
  find_author (snd (Author_add_author succ_max "Le Guin" None None two_books)) 3
    = Some (Author.Make 3 "Le Guin" None None) /\
  find_author (snd (Author_add_author succ_max "Le Guin" None None two_books)) 1
    = Some herbert.
Proof.
  split; [exact succ_max_fresh|].
  destruct (add_author_found succ_max succ_max_fresh "Le Guin" None None two_books)
    as [_ [_ [_ [Hnew [Hold _]]]]].
  split; [exact Hnew | apply Hold; reflexivity].
Defined.

Lemma add_book_found_witness :
  allocates_fresh succ_max /\
  fits_int64_opt (Some 1817) /\ fits_int64 2 /\
  fst (Book_query_get 3
         (with_store (fresh two_books (always Fails))
            (snd (Book_add_book succ_max "Persuasion" None (Some 1817) 2 two_books))))
    = Ok (Some (Book.Make 3 None "Persuasion" (Some 1817) 2 (Some austen))) /\
  Book.author (fst (Book_add_book succ_max "Solaris" None None 9 two_books)) = None.
Proof.
  assert (Hy : fits_int64_opt (Some 1817)) by (cbn; unfold fits_int64; lia).
  assert (Ha : fits_int64 2) by (unfold fits_int64; lia).
  assert (Ha' : fits_int64 9) by (unfold fits_int64; lia).
  split; [exact succ_max_fresh|]. split; [exact Hy|]. split; [exact Ha|]. split.
  - destruct (add_book_found succ_max succ_max_fresh "Persuasion" None (Some 1817) 2
                two_books (fresh two_books (always Fails)) Hy Ha)
      as [_ [_ [_ [_ [_ [H _]]]]]].
    exact H.
  - destruct (add_book_found succ_max succ_max_fresh "Solaris" None None 9
                two_books (fresh two_books (always Fails)) I Ha')
      as [_ [_ [_ [_ [H _]]]]].
    rewrite H. reflexivity.
Defined.

Lemma add_then_delete_book_witness :
  allocates_fresh succ_max /\
  store (snd (Book_delete_book
                (fst (Book_add_book succ_max "Persuasion" None (Some 1817) 2 two_books))
                (with_store (fresh two_books (always Fails))
                   (snd (Book_add_book succ_max "Persuasion" None (Some 1817) 2 two_books)))))
    = two_books.
Proof.
  split; [exact succ_max_fresh|].
  exact (add_then_delete_book succ_max succ_max_fresh "Persuasion" None (Some 1817) 2
           (fresh two_books (always Fails))).
Defined.

Lemma keys_stay_unique_witness :
  allocates_fresh succ_max /\ keys_unique two_books /\
  keys_unique (snd (Book_add_book succ_max "Persuasion" None (Some 1817) 2 two_books)).
Proof.
  assert (H : keys_unique two_books).
  { split; cbn; apply (bool_decide_unpack _); reflexivity. }
  split; [exact succ_max_fresh|]. split; [exact H|].
  apply (proj1 (proj2 (keys_stay_unique succ_max succ_max_fresh two_books H))).
Defined.

(** ** Inserts seen through the listing *)





(** ** The author form *)

Section FormFacts.
Variable next_id : list Z -> Z.
Variable strptime : string -> string -> option date.

Lemma add_author_run (request : FormRequest) (db : Store) :
  add_author next_id strptime request db =
  if bool_decide (form_method request = POST) then
    match assoc "name" (form request) with
    | None => (Aborted (BadRequestKeyError "name"), db)
    | Some name =>
      match assoc "birth_date" (form request) with
      | None => (Aborted (BadRequestKeyError "birth_date"), db)
      | Some birth =>
        match strptime birth "%Y-%m-%d" with
        | None => (Aborted ValueError, db)
        | Some birth_date =>
          match assoc "date_of_death" (form request) with
          | None => (Aborted (BadRequestKeyError "date_of_death"), db)
          | Some death =>
            match strptime death "%Y-%m-%d" with
            | None => (Aborted ValueError, db)
            | Some date_of_death =>
                (Done (FormPage "add_author.html"
                         [("message", "Author added successfully!")]),
                 snd (Author_add_author next_id name (Some birth_date)
                                        (Some date_of_death) db))
            end
          end
        end
      end
    end
  else (Done (FormPage "add_author.html" []), db).
Proof.
  unfold add_author, form_getitem, parse_date, call_add_author.
  destruct (bool_decide (form_method request = POST)); [|reflexivity].
  cbv [mbind F_bind mret F_ret].
  destruct (assoc "name" (form request)); [|reflexivity].
  destruct (assoc "birth_date" (form request)) as [birth|]; [|reflexivity].
  destruct (strptime birth "%Y-%m-%d"); [|reflexivity].
  destruct (assoc "date_of_death" (form request)) as [death|]; [|reflexivity].
  destruct (strptime death "%Y-%m-%d"); reflexivity.
Qed.

(** X19.  A [POST] carrying a name and two dates that [strptime] accepts
    adds exactly one author, with that name and both dates set, leaves the
    books and the other authors as they were, and answers with the success
    message; the author is then found under its id. *)
Theorem add_author_accepts (request : FormRequest) (db : Store)
    (name birth death : string) (birth_date date_of_death : date) :
  allocates_fresh next_id ->
  form_method request = POST ->
  assoc "name" (form request) = Some name ->
  assoc "birth_date" (form request) = Some birth ->
  assoc "date_of_death" (form request) = Some death ->
  strptime birth "%Y-%m-%d" = Some birth_date ->
  strptime death "%Y-%m-%d" = Some date_of_death ->
  exists author db',
    add_author next_id strptime request db =
      (Done (FormPage "add_author.html" [("message", "Author added successfully!")]), db') /\
    authors db' = authors db ++ [author] /\
    books db' = books db /\
    Author.name author = name /\
    Author.birth_date author = Some birth_date /\
    Author.date_of_death author = Some date_of_death /\
    find_author db' (Author.id author) = Some author.
Proof.
  intros Hfresh Hm Hn Hb Hd Hpb Hpd.
  rewrite add_author_run, bool_decide_eq_true_2 by exact Hm.
  rewrite Hn, Hb, Hpb, Hd, Hpd.
  eexists _, _. split; [reflexivity|].
  repeat (split; [reflexivity|]).
  apply add_author_lookup. exact Hfresh.
Qed.

(** X20.  The author form fails without effect.  A request that is not a
    [POST] gets the empty form and changes nothing; a missing field raises
    [BadRequestKeyError], a date [strptime] rejects raises [ValueError]
    (the birth date is read and parsed before the date of death is looked
    at), and whenever the view raises the store is as before: no author is
    added. *)
Theorem add_author_rejects (request : FormRequest) (db : Store) :
  (forall e, fst (add_author next_id strptime request db) = Aborted e ->
     snd (add_author next_id strptime request db) = db) /\
  (form_method request <> POST ->
   add_author next_id strptime request db = (Done (FormPage "add_author.html" []), db)) /\
  (form_method request = POST ->
   (assoc "name" (form request) = None ->
    fst (add_author next_id strptime request db) = Aborted (BadRequestKeyError "name")) /\
   (forall name, assoc "name" (form request) = Some name ->
      (assoc "birth_date" (form request) = None ->
       fst (add_author next_id strptime request db)
         = Aborted (BadRequestKeyError "birth_date")) /\
      (forall birth, assoc "birth_date" (form request) = Some birth ->
         (strptime birth "%Y-%m-%d" = None ->
          fst (add_author next_id strptime request db) = Aborted ValueError) /\
         (forall birth_date, strptime birth "%Y-%m-%d" = Some birth_date ->
            (assoc "date_of_death" (form request) = None ->
             fst (add_author next_id strptime request db)
               = Aborted (BadRequestKeyError "date_of_death")) /\
            (forall death, assoc "date_of_death" (form request) = Some death ->
               strptime death "%Y-%m-%d" = None ->
               fst (add_author next_id strptime request db) = Aborted ValueError))))).
Proof.
  rewrite add_author_run. split; [|split].
  - destruct (bool_decide (form_method request = POST)); [|discriminate].
    destruct (assoc "name" (form request)); [|reflexivity].
    destruct (assoc "birth_date" (form request)) as [birth|]; [|reflexivity].
    destruct (strptime birth "%Y-%m-%d"); [|reflexivity].
    destruct (assoc "date_of_death" (form request)) as [death|]; [|reflexivity].
    destruct (strptime death "%Y-%m-%d"); [discriminate | reflexivity].
  - intros Hm. rewrite bool_decide_eq_false_2 by exact Hm. reflexivity.
  - intros Hm. rewrite bool_decide_eq_true_2 by exact Hm.
    split; [intros ->; reflexivity|].
    intros name ->. split; [intros ->; reflexivity|].
    intros birth ->. split; [intros ->; reflexivity|].
    intros birth_date ->. split; [intros ->; reflexivity|].
    intros death -> ->. reflexivity.
Qed.
End FormFacts.

Lemma add_author_accepts_witness :
  allocates_fresh succ_max /\
  exists db',
    add_author succ_max strptime_iso
      (post_form [("name", "Le Guin"); ("birth_date", "1929-10-21");
                  ("date_of_death", "2018-01-22")]) two_books =
      (Done (FormPage "add_author.html" [("message", "Author added successfully!")]), db') /\
    authors db' = [herbert; austen;
                   Author.Make 3 "Le Guin" (Some (Date 1929 10 21)) (Some (Date 2018 1 22))].
Proof.
  split; [exact succ_max_fresh|].
  destruct (add_author_accepts succ_max strptime_iso
              (post_form [("name", "Le Guin"); ("birth_date", "1929-10-21");
                          ("date_of_death", "2018-01-22")]) two_books
              "Le Guin" "1929-10-21" "2018-01-22" (Date 1929 10 21) (Date 2018 1 22)
              succ_max_fresh eq_refl eq_refl eq_refl eq_refl eq_refl eq_refl)
    as [author [db' [Hrun _]]].
  exists db'. split; [exact Hrun|].
  apply (f_equal snd) in Hrun. cbn [snd] in Hrun. rewrite <- Hrun. reflexivity.
Defined.

Lemma add_author_rejects_witness :
  fst (add_author succ_max strptime_iso
         (post_form [("name", "Le Guin"); ("birth_date", "1929-10-21");
                     ("date_of_death", "")]) two_books) = Aborted ValueError /\
  snd (add_author succ_max strptime_iso
         (post_form [("name", "Le Guin"); ("birth_date", "1929-10-21");
                     ("date_of_death", "")]) two_books) = two_books.
Proof.
  destruct (add_author_rejects succ_max strptime_iso
              (post_form [("name", "Le Guin"); ("birth_date", "1929-10-21");
                          ("date_of_death", "")]) two_books) as [Hsame [_ Hpost]].
  assert (He : fst (add_author succ_max strptime_iso
                      (post_form [("name", "Le Guin"); ("birth_date", "1929-10-21");
                                  ("date_of_death", "")]) two_books) = Aborted ValueError).
  { destruct (Hpost eq_refl) as [_ H]. destruct (H "Le Guin" eq_refl) as [_ H'].
    destruct (H' "1929-10-21" eq_refl) as [_ H''].
    destruct (H'' (Date 1929 10 21) eq_refl) as [_ H3]. apply (H3 ""); reflexivity. }
  split; [exact He | exact (Hsame _ He)].
Defined.

(** ** What a listing shows *)

(** X21.  The entries of a listing sorted by title show books whose titles
    are non-decreasing; sorted by author, books that all have their author
    and whose authors' names are non-decreasing. *)
Theorem listing_is_sorted (lower : string -> string) (request : Request) (w w' : world)
    (books_data : list book_info) :
  home lower request w = (Ok (listing books_data), w') ->
  exists bs,
    Forall2 shows bs books_data /\
    (args_get request "sort_by" = Some "title" ->
     StronglySorted (fun a b => String.leb (Book.title a) (Book.title b) = true) bs) /\
    (args_get request "sort_by" = Some "author" ->
     Forall has_author bs /\
     StronglySorted (fun a b => String.leb (linked_name a) (linked_name b) = true) bs).
Proof.
  intros Hrun. destruct (home_listing _ _ _ _ _ Hrun) as [bs [cs [Hbs [_ [Hlen ->]]]]].
  destruct (surviving_split _ _ _ _ _ Hbs) as [filtered [_ Hs]].
  exists bs. split; [apply zip_with_cover_shows; exact Hlen|]. split.
  - intros Hsort. rewrite Hsort, sort_step_title_total in Hs. injection Hs as <-.
    apply sorted_by_key_sorted.
  - intros Hsort. rewrite Hsort in Hs.
    assert (HB : Forall has_author filtered).
    { unfold sort_step in Hs. cbn in Hs. apply list_sort_ok_inv in Hs.
      destruct Hs as [_ Hs]. eapply List.Forall_impl; [|exact Hs].
      intros b. apply has_author_of_key. }
    rewrite (sort_step_author_total filtered HB) in Hs. injection Hs as <-.
    split; [|apply sorted_by_key_sorted].
    eapply has_author_perm; [apply sorted_by_key_perm | exact HB].
Qed.

Lemma listing_is_sorted_witness :
  exists books_data w' bs,
    home ascii_lower (get_request [("sort_by", "author")])
         (fresh two_books (always (Returns not_found))) = (Ok (listing books_data), w') /\
    Forall2 shows bs books_data /\
    StronglySorted (fun a b => String.leb (linked_name a) (linked_name b) = true) bs.
Proof.
  assert (H : home ascii_lower (get_request [("sort_by", "author")])
                (fresh two_books (always (Returns not_found)))
              = (Ok (listing (zip_with with_cover [emma; dune] [PStr ""; PStr ""])),
                 World two_books [SelectAllBooks] (always (Returns not_found))
                       (map lookup_url [emma; dune]))).
  { rewrite home_run. reflexivity. }
  destruct (listing_is_sorted _ _ _ _ _ H) as [bs [Hshows [_ Hauthor]]].
  eexists _, _, bs. split; [exact H|]. split; [exact Hshows|].
  apply Hauthor. reflexivity.
Defined.

(** X22.  With a non-empty search string, the entries of a listing show
    exactly the books of the table that match it, each once: every book
    shown has the lower-cased query in its lower-cased title or in its
    author's lower-cased name. *)
Theorem listing_matches_search (lower : string -> string) (request : Request) (w w' : world)
    (books_data : list book_info) (s : string) :
  home lower request w = (Ok (listing books_data), w') ->
  args_get request "search_query" = Some s ->
  s <> "" ->
  exists bs,
    Forall2 shows bs books_data /\
    Permutation bs (List.filter (hit lower s) (all_books w)) /\
    forall b, In b bs ->
      substring_of (lower s) (lower (Book.title b)) \/
      exists a, Book.author b = Some a /\
                substring_of (lower s) (lower (Author.name a)).
Proof.
  intros Hrun Hq Hs. destruct (home_listing _ _ _ _ _ Hrun) as [bs [cs [Hbs [_ [Hlen ->]]]]].
  destruct (surviving_split _ _ _ _ _ Hbs) as [filtered [Hf Hsort]].
  rewrite Hq in Hf. unfold filter_step in Hf. destruct s as [|c s]; [congruence|].
  cbn [truthy] in Hf. set (q := String c s) in *. rewrite filter_books_cases in Hf.
  destruct (existsb (undecided lower q) (all_books w)) eqn:Hu; [discriminate|].
  injection Hf as <-. apply sort_step_perm in Hsort.
  exists bs. split; [apply zip_with_cover_shows; exact Hlen|].
  split; [symmetry; exact Hsort|].
  intros b Hb. apply (Permutation_in _ (Permutation_sym Hsort)) in Hb.
  apply List.filter_In in Hb. destruct Hb as [Hin Hhit].
  assert (Hub : undecided lower q b = false).
  { destruct (undecided lower q b) eqn:Hub; [|reflexivity].
    assert (existsb (undecided lower q) (all_books w) = true)
      by (apply existsb_exists; eauto). congruence. }
  unfold undecided in Hub. unfold hit, linked_name in Hhit.
  destruct (contains (lower q) (lower (Book.title b))) eqn:Ht.
  - left. apply contains_spec. exact Ht.
  - right. destruct (Book.author b) as [a|].
    + exists a. split; [reflexivity|]. apply contains_spec. exact Hhit.
    + rewrite bool_decide_eq_true_2 in Hub by reflexivity. discriminate Hub.
Qed.

Lemma listing_matches_search_witness :
  exists books_data w' bs,
    home ascii_lower (get_request [("search_query", "AUST")])
         (fresh two_books (always (Returns not_found))) = (Ok (listing books_data), w') /\
    Forall2 shows bs books_data /\
    Permutation bs [emma].
Proof.
  assert (H : home ascii_lower (get_request [("search_query", "AUST")])
                (fresh two_books (always (Returns not_found)))
              = (Ok (listing (zip_with with_cover [emma] [PStr ""])),
                 World two_books [SelectAllBooks] (always (Returns not_found))
                       (map lookup_url [emma]))).
  { rewrite home_run. reflexivity. }
  assert (Hs : "AUST" <> "") by discriminate.
  destruct (listing_matches_search _ _ _ _ _ "AUST" H eq_refl Hs) as [bs [Hshows [Hperm _]]].
  eexists _, _, bs. split; [exact H|]. split; [exact Hshows | exact Hperm].
Defined.

(** X23.  Only the first record of the answer is read: the cover computed
    from a body whose items are [item :: rest] is the one computed from the
    body that has [item] alone, whatever the other keys of the body and the
    other records are. *)
Theorem cover_image_first_item_only (d : list (string * pyval)) (item : pyval)
    (rest : list pyval) :
  assoc "items" d = Some (PList (item :: rest)) ->
  cover_image {| status_code := 200; json_body := Some (PDict d) |} =
  cover_image {| status_code := 200;
                 json_body := Some (PDict [("items", PList [item])]) |}.
Proof.
  intros Hi. unfold cover_image, Response_json. cbn. rewrite Hi. reflexivity.
Qed.

Lemma cover_image_first_item_only_witness :
  cover_image {| status_code := 200;
                 json_body := Some (PDict [("kind", PStr "books#volumes");
                   ("items", PList [PDict [("volumeInfo", PDict [])]; PNone])]) |}
    = Ok (PStr "").
Proof.
  rewrite (cover_image_first_item_only
             [("kind", PStr "books#volumes");
              ("items", PList [PDict [("volumeInfo", PDict [])]; PNone])]
             (PDict [("volumeInfo", PDict [])]) [PNone] eq_refl).
  reflexivity.
Defined.
